(** * Self-evolution pipeline of the Universal-Standard MCP server

    Shallow embedding of the parts of
    - [src/src/evolution/orchestrator.js] (EvolutionOrchestrator),
    - [src/src/evolution/sandbox.js] (ToolSandbox),
    - [src/src/evolution/generator.js] (ToolGenerator.analyzeDiscoveryResults),
    - [src/src/mcp/toolRegistry.js] (ToolRegistry.execute / evolveAndExecute)
    that the specification talks about.

    Conventions:
    - JS strings are Rocq [string]s (ASCII); JS numbers are [Z] (the code
      only adds, subtracts, compares and takes minima of them).
    - A JS [Map] is an insertion-ordered association list.
    - External collaborators (discovery sources, language model, storage,
      the [vm] module, regular-expression matching) are the fields of
      environment records: every theorem quantifies over them. *)

From Stdlib Require Import String Ascii List ZArith Lia Bool Sorting.Permutation Sorting.Sorted.
Import ListNotations.
Open Scope string_scope.
Set Warnings "-register-all".

(* ================================================================== *)
(** ** Generic helpers *)

(** Results of JS code that may throw: [Ok v] or an exception carrying
    its [message]. *)
Inductive exc (A : Type) : Type :=
| Ok (v : A)
| Exn (message : string).
Arguments Ok {A} v.
Arguments Exn {A} message.

(* ================================================================== *)
(** ** [toolName.trim().toLowerCase().replace(/[^a-z0-9_]/g, '_')] *)

Module Sanitize.

(** A JS string is a sequence of UTF-16 code units; an [ascii] here is
    one code unit below 256 (Latin-1), so tool names with code units from
    U+0100 up are outside the model. On this range the three steps below
    are exact: [toLowerCase] changes no length and maps every letter
    outside A-Z to a character outside [[a-z]], which the replacement
    turns into ['_'] either way. *)

(** Characters removed by [String.prototype.trim] below U+0100: TAB, LF,
    VT, FF, CR, space and NO-BREAK SPACE. *)
Definition is_ws (c : ascii) : bool :=
  let n := nat_of_ascii c in
  (n =? 32)%nat || (n =? 9)%nat || (n =? 10)%nat || (n =? 11)%nat
  || (n =? 12)%nat || (n =? 13)%nat || (n =? 160)%nat.

Fixpoint trim_start (l : list ascii) : list ascii :=
  match l with
  | [] => []
  | c :: r => if is_ws c then trim_start r else l
  end.

Definition trim (l : list ascii) : list ascii :=
  rev (trim_start (rev (trim_start l))).

(** [toLowerCase] on A-Z; the Latin-1 capitals (U+00C0 to U+00DE) are
    left as they are, since they and their lower-case forms are all
    replaced by ['_']. *)
Definition to_lower (c : ascii) : ascii :=
  let n := nat_of_ascii c in
  if ((65 <=? n)%nat && (n <=? 90)%nat) then ascii_of_nat (n + 32) else c.

(** Membership in the class [[a-z0-9_]]. *)
Definition is_name_char (c : ascii) : bool :=
  let n := nat_of_ascii c in
  ((97 <=? n)%nat && (n <=? 122)%nat) || ((48 <=? n)%nat && (n <=? 57)%nat)
  || (n =? 95)%nat.

Definition replace_char (c : ascii) : ascii :=
  if is_name_char c then c else "_"%char.

Definition sanitize (s : string) : string :=
  string_of_list_ascii
    (map replace_char (map to_lower (trim (list_ascii_of_string s)))).

End Sanitize.
Import Sanitize.

(* ================================================================== *)
(** ** JS [Map] from strings to strings *)

Module JsMap.

Definition t := list (string * string).

Fixpoint get (k : string) (m : t) : option string :=
  match m with
  | [] => None
  | (k', v) :: r => if String.eqb k k' then Some v else get k r
  end.

Definition has (k : string) (m : t) : bool :=
  match get k m with Some _ => true | None => false end.

(** [Map.prototype.set]: overwrite in place, or append a new entry. *)
Fixpoint set (k v : string) (m : t) : t :=
  match m with
  | [] => [(k, v)]
  | (k', v') :: r => if String.eqb k k' then (k, v) :: r else (k', v') :: set k v r
  end.

Definition delete (k : string) (m : t) : t :=
  filter (fun kv => negb (String.eqb k (fst kv))) m.

Definition size (m : t) : nat := length m.

Definition keys (m : t) : list string := map fst m.

End JsMap.

(* ================================================================== *)
(** ** EvolutionOrchestrator *)

Module Orchestrator.

Definition MAX_CONCURRENT_EVOLUTIONS : nat := 5.

(** A row written by [storage.logToolCreation] (the fields the claims
    mention). *)
Record log_row := LogRow { row_tool : string; row_stage : string; row_status : string }.

Record state := State {
  activeEvolutions : JsMap.t;
  creationLog : list log_row
}.

(** The collaborators of the orchestrator. [store_ok] says whether
    [storage.logToolCreation] succeeds for a row; the stage oracles give
    the outcome of [githubDiscovery.search]/[postmanDiscovery.search],
    [generator.generate] (success flag and error), [sandbox.test]
    (passed flag) and [storage.createGeneratedTool] (the new id). *)
Record env := Env {
  store_ok : log_row -> bool;
  discovery : exc unit;
  generation : exc (bool * string);
  testing : exc bool;
  registration : exc string
}.

Record evolve_result := EvolveResult {
  success : bool;
  evolutionId : string;
  stage : option string;
  error : option string
}.

(** State-and-exception monad for the async body of [evolve]. *)
Definition M (A : Type) := state -> exc A * state.

Definition ret {A} (a : A) : M A := fun s => (Ok a, s).
Definition bind {A B} (m : M A) (k : A -> M B) : M B :=
  fun s => match m s with
           | (Ok a, s') => k a s'
           | (Exn e, s') => (Exn e, s')
           end.
Definition lift {A} (x : exc A) : M A := fun s => (x, s).
Definition try_catch {A} (m : M A) (h : string -> M A) : M A :=
  fun s => match m s with
           | (Ok a, s') => (Ok a, s')
           | (Exn e, s') => h e s'
           end.
Definition modify_active (f : JsMap.t -> JsMap.t) : M unit :=
  fun s => (Ok tt, State (f (activeEvolutions s)) (creationLog s)).

Notation "x <- m ;; k" := (bind m (fun x => k)) (at level 61, m at next level, right associativity).
Notation "m ;;; k" := (bind m (fun _ => k)) (at level 61, right associativity).

Section WithEnv.
Variable E : env.

(** [logStage]: the store call is wrapped in try/catch; a failure is
    only reported through [logger.warn]. *)
Definition logStage (toolName stage status : string) : M unit :=
  fun s =>
    let row := LogRow toolName stage status in
    if store_ok E row then (Ok tt, State (activeEvolutions s) (creationLog s ++ [row]))
    else (Ok tt, s).

Definition runDiscovery (toolName : string) : M unit :=
  logStage toolName "discovery" "in_progress" ;;;
  d <- lift (discovery E) ;;
  logStage toolName "discovery" "completed" ;;;
  ret d.

Definition runGeneration (toolName : string) : M (bool * string) :=
  logStage toolName "generation" "in_progress" ;;;
  g <- lift (generation E) ;;
  logStage toolName "generation" (if fst g then "completed" else "failed") ;;;
  ret g.

Definition runTesting (toolName : string) : M bool :=
  logStage toolName "testing" "in_progress" ;;;
  t <- lift (testing E) ;;
  logStage toolName "testing" (if t then "completed" else "failed") ;;;
  ret t.

Definition runRegistration (toolName : string) : M string :=
  logStage toolName "registration" "in_progress" ;;;
  id <- lift (registration E) ;;
  logStage toolName "registration" "completed" ;;;
  ret id.

(** Lines 74-149 of [evolve]: the body run after the lock is taken. *)
Definition evolve_body (toolName evoId : string) : M evolve_result :=
  try_catch
    (logStage toolName "started" "in_progress" ;;;
     runDiscovery toolName ;;;
     g <- runGeneration toolName ;;
     if negb (fst g) then
       logStage toolName "generation" "failed" ;;;
       modify_active (JsMap.delete toolName) ;;;
       ret (EvolveResult false evoId (Some "generation") (Some (snd g)))
     else
       passed <- runTesting toolName ;;
       if negb passed then
         logStage toolName "testing" "failed" ;;;
         modify_active (JsMap.delete toolName) ;;;
         ret (EvolveResult false evoId (Some "testing") (Some "Tool failed sandbox testing"))
       else
         _ <- runRegistration toolName ;;
         logStage toolName "completed" "success" ;;;
         modify_active (JsMap.delete toolName) ;;;
         ret (EvolveResult true evoId None None))
    (fun msg =>
       logStage toolName "error" "failed" ;;;
       modify_active (JsMap.delete toolName) ;;;
       ret (EvolveResult false evoId (Some "unknown") (Some msg))).

End WithEnv.

(** The synchronous prefix of [evolve] (lines 39-72): either an
    immediate result, or the lock key together with the updated map. *)
Inductive entry :=
| Reject (r : evolve_result)
| Accept (key : string) (active' : JsMap.t).

Definition evolve_entry (active : JsMap.t) (toolName evoId : string) : entry :=
  if String.eqb toolName "" then
    Reject (EvolveResult false evoId None (Some "Tool name is required"))
  else
    let sanitizedName := sanitize toolName in
    match JsMap.get sanitizedName active with
    | Some running =>
        Reject (EvolveResult false running None
                  (Some ("Evolution already in progress for " ++ sanitizedName)))
    | None =>
        if (MAX_CONCURRENT_EVOLUTIONS <=? JsMap.size active)%nat then
          Reject (EvolveResult false evoId None
                    (Some "Maximum concurrent evolutions (5) reached"))
        else Accept sanitizedName (JsMap.set sanitizedName evoId active)
    end.

(** [evolve(toolName)] with the fresh [uuidv4()] given as [evoId]. *)
Definition evolve (E : env) (toolName evoId : string) : M evolve_result :=
  fun s =>
    match evolve_entry (activeEvolutions s) toolName evoId with
    | Reject r => (Ok r, s)
    | Accept _ active' => evolve_body E toolName evoId (State active' (creationLog s))
    end.

(** Interleaving of concurrent [evolve] calls. The synchronous prefix
    ([evolve_entry]) runs atomically on the event loop; afterwards the
    body only touches [activeEvolutions] through its final
    [activeEvolutions.delete(toolName)] (see [evolve_body_active]), which
    may happen after any other call has run. A world records the map and
    the in-flight calls as (toolName, lock key) pairs. *)
Record world := World {
  wactive : JsMap.t;
  inflight : list (string * string)
}.

Inductive step : world -> world -> Prop :=
| step_reject w n id r :
    evolve_entry (wactive w) n id = Reject r -> step w w
| step_accept w n id k a' :
    evolve_entry (wactive w) n id = Accept k a' ->
    step w (World a' ((n, k) :: inflight w))
| step_finish w l1 l2 n k :
    inflight w = (l1 ++ (n, k) :: l2)%list ->
    step w (World (JsMap.delete n (wactive w)) (l1 ++ l2)%list).

Inductive reachable : world -> Prop :=
| reach_init : reachable (World [] [])
| reach_step w w' : reachable w -> step w w' -> reachable w'.

(** [isEvolutionInProgress(toolName)]: a lookup with the name as given. *)
Definition isEvolutionInProgress (active : JsMap.t) (toolName : string) : bool :=
  JsMap.has toolName active.

(** [getActiveEvolutions()] *)
Definition getActiveEvolutions (active : JsMap.t) : list (string * string) :=
  map (fun kv => (fst kv, snd kv)) active.

(** The audit rows written by [evolve_body] when every stage succeeds,
    when generation reports failure, when testing reports failure, and
    when discovery throws [m]. *)
Definition rows_prefix (toolName : string) : list log_row :=
  [LogRow toolName "started" "in_progress";
   LogRow toolName "discovery" "in_progress"].

Definition rows_generated (toolName : string) (ok : bool) : list log_row :=
  (rows_prefix toolName ++
  [LogRow toolName "discovery" "completed";
   LogRow toolName "generation" "in_progress";
   LogRow toolName "generation" (if ok then "completed" else "failed")])%list.

Definition rows_tested (toolName : string) (ok : bool) : list log_row :=
  (rows_generated toolName true ++
  [LogRow toolName "testing" "in_progress";
   LogRow toolName "testing" (if ok then "completed" else "failed")])%list.

End Orchestrator.

(* ================================================================== *)
(** ** ToolSandbox *)

Module Sandbox.

(** JS values returned by handlers and used as test inputs. *)
Inductive jsval : Type :=
| JUndef
| JNull
| JBool (b : bool)
| JNum (z : Z)
| JStr (s : string)
| JArr (l : list jsval)
| JObj (kvs : list (string * jsval)).

(** JS truthiness ([NaN] aside). *)
Definition truthy (v : jsval) : bool :=
  match v with
  | JUndef | JNull => false
  | JBool b => b
  | JNum z => negb (Z.eqb z 0)
  | JStr s => negb (String.eqb s "")
  | JArr _ | JObj _ => true
  end.

Fixpoint obj_get (k : string) (kvs : list (string * jsval)) : option jsval :=
  match kvs with
  | [] => None
  | (k', v) :: r => if String.eqb k k' then Some v else obj_get k r
  end.

(** Own data property write: overwrite in place or append. *)
Fixpoint obj_put (k : string) (v : jsval) (kvs : list (string * jsval)) : list (string * jsval) :=
  match kvs with
  | [] => [(k, v)]
  | (k', v') :: r => if String.eqb k k' then (k, v) :: r else (k', v') :: obj_put k v r
  end.

(** [obj[k] = v] on an ordinary object (prototype [Object.prototype]).
    For ["__proto__"] the inherited accessor runs instead: it creates no
    own property (a primitive is ignored; an object or [null] becomes the
    prototype, which is not represented here: objects are their own
    properties). *)
Definition obj_set (k : string) (v : jsval) (kvs : list (string * jsval)) : list (string * jsval) :=
  if String.eqb k "__proto__" then kvs else obj_put k v kvs.

(** Property read [v.p]: a [TypeError] on [undefined]/[null],
    [undefined] when absent. *)
Definition get_prop (v : jsval) (p : string) : exc jsval :=
  match v with
  | JUndef => Exn ("Cannot read properties of undefined (reading '" ++ p ++ "')")
  | JNull => Exn ("Cannot read properties of null (reading '" ++ p ++ "')")
  | JObj kvs => Ok (match obj_get p kvs with Some x => x | None => JUndef end)
  | _ => Ok JUndef
  end.

Definition DEFAULT_TIMEOUT : Z := 5000.
Definition MAX_TIMEOUT : Z := 30000.
Definition MAX_MEMORY : Z := 50 * 1024 * 1024.

(** [a || b] for an optional numeric option. *)
Definition num_or (o : option Z) (d : Z) : Z :=
  match o with
  | Some z => if Z.eqb z 0 then d else z
  | None => d
  end.

Record options := Options { opt_timeout : option Z; opt_maxMemory : option Z }.

Record sandbox := Sandbox_ { defaultTimeout : Z; maxMemory : Z }.

(** [new ToolSandbox(options)]. *)
Definition new_sandbox (o : options) : sandbox :=
  Sandbox_ (num_or (opt_timeout o) DEFAULT_TIMEOUT) (num_or (opt_maxMemory o) MAX_MEMORY).

(** The part of a JSON schema [generateSampleValue] and
    [generateDefaultTestCases] read. *)
Inductive schema : Type :=
| Schema (stype : option string) (senum : option (list jsval)) (sdefault : option jsval)
         (sminimum : option jsval) (sitems : option schema)
         (sproperties : option (list (string * schema))) (srequired : option (list string)).

Definition schema_properties (s : schema) : list (string * schema) :=
  match s with Schema _ _ _ _ _ ps _ => match ps with Some l => l | None => [] end end.

Definition schema_required (s : schema) : list string :=
  match s with Schema _ _ _ _ _ _ rq => match rq with Some l => l | None => [] end end.

Fixpoint prop_lookup (k : string) (ps : list (string * schema)) : option schema :=
  match ps with
  | [] => None
  | (k', p) :: r => if String.eqb k k' then Some p else prop_lookup k r
  end.


(** [generateSampleValue(schema)] on a present schema. *)
Fixpoint sample_value (s : schema) : jsval :=
  match s with
  | Schema ty en df mn it ps _ =>
      let ty := match ty with Some t => t | None => "" end in
      if String.eqb ty "string" then
        match en with
        | Some l => nth 0 l JUndef
        | None => match df with Some d => if truthy d then d else JStr "test_value"
                                | None => JStr "test_value" end
        end
      else if String.eqb ty "integer" || String.eqb ty "number" then
        match df with
        | Some d => if truthy d then d else
                      match mn with Some m => if truthy m then m else JNum 1 | None => JNum 1 end
        | None => match mn with Some m => if truthy m then m else JNum 1 | None => JNum 1 end
        end
      else if String.eqb ty "boolean" then
        match df with
        | Some JUndef | Some JNull | None => JBool true
        | Some d => d
        end
      else if String.eqb ty "array" then
        JArr [match it with Some i => sample_value i | None => JStr "test" end]
      else if String.eqb ty "object" then
        match ps with
        | None => JObj []
        | Some l =>
            JObj ((fix go (l : list (string * schema)) (acc : list (string * jsval)) :=
                     match l with
                     | [] => acc
                     | (k, p) :: r => go r (obj_set k (sample_value p) acc)
                     end) l [])
        end
      else JStr "test"
  end.

(** [generateSampleValue(schema)]: [if (!schema) return 'test'] *)
Definition generateSampleValue (s : option schema) : jsval :=
  match s with Some s => sample_value s | None => JStr "test" end.

Record test_case := TestCase { tc_name : string; tc_input : jsval; tc_expectedOutput : jsval }.

Definition success_expected : jsval := JObj [("type", JStr "success")].

Definition generateDefaultTestCases (inputSchema : schema) : list test_case :=
  let properties := schema_properties inputSchema in
  let required := schema_required inputSchema in
  let minimalInput :=
    fold_left (fun acc prop => obj_set prop (generateSampleValue (prop_lookup prop properties)) acc)
      required [] in
  let fullInput :=
    fold_left (fun acc kv => obj_set (fst kv) (generateSampleValue (Some (snd kv))) acc)
      properties [] in
  [TestCase "minimal_required_params" (JObj minimalInput) success_expected;
   TestCase "all_params" (JObj fullInput) success_expected].

Record validation := Validation { v_passed : bool; v_reason : string }.

(** [result.content.some(c => c.type === 'text' && typeof c.text === 'string')] *)
Fixpoint some_text_item (items : list jsval) : exc bool :=
  match items with
  | [] => Ok false
  | c :: r =>
      match get_prop c "type" with
      | Exn e => Exn e
      | Ok (JStr "text") =>
          match get_prop c "text" with
          | Exn e => Exn e
          | Ok (JStr _) => Ok true
          | Ok _ => some_text_item r
          end
      | Ok _ => some_text_item r
      end
  end.

(** [result.content && Array.isArray(result.content) && hasValidContent] *)
Definition hasValidContent (result : jsval) : exc bool :=
  match get_prop result "content" with
  | Exn e => Exn e
  | Ok (JArr items) => some_text_item items
  | Ok _ => Ok false
  end.

Definition expects_success (expectedOutput : jsval) : bool :=
  truthy expectedOutput &&
  match get_prop expectedOutput "type" with Ok (JStr "success") => true | _ => false end.

Definition validateResult (result expectedOutput : jsval) : exc validation :=
  if negb (truthy result) then Ok (Validation false "No result returned")
  else
    match hasValidContent result with
    | Exn e => Exn e
    | Ok true => Ok (Validation true "Valid MCP response format")
    | Ok false =>
        if expects_success expectedOutput
        then Ok (Validation true "Execution completed without error")
        else Ok (Validation false
                   "Invalid response format - expected MCP format with content array")
    end.

(** Severity of a dangerous pattern. *)
Inductive severity := Critical | High | Medium | Low.

Definition severity_eqb (a b : severity) : bool :=
  match a, b with
  | Critical, Critical | High, High | Medium, Medium | Low, Low => true
  | _, _ => false
  end.

Record pattern := Pattern { p_source : string; p_name : string; p_severity : severity }.

(** [dangerousPatterns] of [performSecurityScan], regex sources verbatim. *)
Definition dangerousPatterns : list pattern := [
  Pattern "require\s*\(" "require() call" Critical;
  Pattern "import\s+.*from" "import statement" Critical;
  Pattern "process\." "process access" Critical;
  Pattern "child_process" "child_process module" Critical;
  Pattern "\bexec\s*\(" "exec() call" Critical;
  Pattern "\bspawn\s*\(" "spawn() call" Critical;
  Pattern "\beval\s*\(" "eval() call" Critical;
  Pattern "new\s+Function\s*\(" "Function constructor" Critical;
  Pattern "\bfs\." "filesystem access" Critical;
  Pattern "\bfetch\s*\(" "fetch() call" Critical;
  Pattern "XMLHttpRequest" "XMLHttpRequest access" Critical;
  Pattern "WebSocket" "WebSocket access" Critical;
  Pattern "\bhttp\." "http module access" Critical;
  Pattern "\bhttps\." "https module access" Critical;
  Pattern "\bnet\." "net module access" Critical;
  Pattern "\bdns\." "dns module access" Critical;
  Pattern "setTimeout\s*\(" "setTimeout call" High;
  Pattern "setInterval\s*\(" "setInterval call" Critical;
  Pattern "setImmediate\s*\(" "setImmediate call" Critical;
  Pattern "__dirname" "__dirname access" Critical;
  Pattern "__filename" "__filename access" Critical;
  Pattern "\.env\b" "env file access" Critical;
  Pattern "globalThis" "globalThis access" Critical;
  Pattern "global\." "global access" Critical;
  Pattern "Reflect\." "Reflect API" High;
  Pattern "new\s+Proxy\s*\(" "Proxy constructor" High;
  Pattern "Object\.getOwnPropertyDescriptor" "property descriptor access" Medium;
  Pattern "process\.env" "environment variable access" Critical;
  Pattern "Buffer\.allocUnsafe" "unsafe buffer allocation" High;
  Pattern "WeakRef" "WeakRef access" Medium;
  Pattern "FinalizationRegistry" "FinalizationRegistry access" Medium
].

(** What the sandbox uses from the JS engine: [RegExp.prototype.test]
    (on a regex source and a text), whether [new vm.Script(code)]
    compiles, and what [script.runInContext] yields on a fresh context:
    a thrown error, a non-function value, or a handler. A handler call
    settles after [d] ms with a value or a rejection, or never settles. *)
Inductive call_outcome :=
| Settles (d : Z) (r : exc jsval)
| Never.

Inductive loaded :=
| LoadThrows (message : string)
| NotAFunction
| Handler (h : jsval -> call_outcome).

Record vm_env := VmEnv {
  regex_test : string -> string -> bool;
  script_compiles : string -> bool;
  run_in_context : string -> loaded
}.

Record scan_result := ScanResult { scan_passed : bool; scan_issues : list pattern }.

Definition count_sev (sv : severity) (l : list pattern) : nat :=
  length (filter (fun p => severity_eqb (p_severity p) sv) l).

Definition performSecurityScan (V : vm_env) (handlerCode : jsval) : scan_result :=
  match handlerCode with
  | JStr code =>
      if String.eqb code "" then ScanResult false [Pattern "" "Invalid code" Critical]
      else
        let issues := filter (fun p => regex_test V (p_source p) code) dangerousPatterns in
        ScanResult (Nat.eqb (count_sev Critical issues) 0 && Nat.eqb (count_sev High issues) 0)
                   issues
  | _ => ScanResult false [Pattern "" "Invalid code" Critical]
  end.

(** Observable engine work, in order: compiling the wrapped code,
    running it in a context with a [runInContext] timeout, and calling
    the handler raced against a wall-clock timeout. *)
Inductive event :=
| EvCompile (code : string)
| EvRunScript (code : string) (timeout : Z)
| EvCall (input : jsval) (timeout : Z).

Record tool := Tool { tool_name : string; handlerCode : jsval; inputSchema : option schema }.

Record exec_result := ExecResult {
  e_passed : bool;
  e_error : option string;
  e_validation : option validation
}.

(** [`(${tool.handlerCode})`]: only reached with a string that passed
    the scan. *)
Definition wrapped (hc : jsval) : string :=
  match hc with JStr s => "(" ++ s ++ ")" | _ => "(undefined)" end.

(** The delay Node's [setTimeout] actually uses: one outside
    [1 .. 2^31 - 1] ms is replaced by 1 ms. *)
Definition timer_delay (timeout : Z) : Z :=
  if Z.leb 1 timeout && Z.leb timeout 2147483647 then timeout else 1%Z.

(** [Promise.race([call, timeout])]: the handler wins when it settles
    before the timer fires. *)
Definition race (o : call_outcome) (timeout : Z) (timeout_msg : string) : exc jsval :=
  match o with
  | Settles d r => if Z.ltb d (timer_delay timeout) then r else Exn timeout_msg
  | Never => Exn timeout_msg
  end.

(** [ToolSandbox.testExecution(tool, testCase)]. Whatever the handler
    throws or rejects with is taken to be an [Error] carrying a
    [message] (the [exc] of a call outcome); a rejection with [undefined]
    or [null], on which the [catch] itself would throw, is not
    represented. *)
Definition testExecution (V : vm_env) (sb : sandbox) (t : tool) (tc : test_case)
  : exec_result * list event :=
  let code := wrapped (handlerCode t) in
  if negb (script_compiles V code) then
    (ExecResult false (Some "SyntaxError") None, [EvCompile code])
  else
    let evs := [EvCompile code; EvRunScript code (defaultTimeout sb)] in
    match run_in_context V code with
    | LoadThrows m => (ExecResult false (Some m) None, evs)
    | NotAFunction => (ExecResult false (Some "Handler is not a function") None, evs)
    | Handler h =>
        let evs := (evs ++ [EvCall (tc_input tc) (defaultTimeout sb)])%list in
        match race (h (tc_input tc)) (defaultTimeout sb) "Execution timeout" with
        | Exn m => (ExecResult false (Some m) None, evs)
        | Ok result =>
            match validateResult result (tc_expectedOutput tc) with
            | Exn m => (ExecResult false (Some m) None, evs)
            | Ok v => (ExecResult (v_passed v) None (Some v), evs)
            end
        end
    end.

Record test_result := TestResult {
  r_passed : bool;
  r_error : option string;
  r_securityScan : option scan_result;
  r_compilationTest : option bool;
  r_executionTests : option (list exec_result)
}.

Fixpoint run_tests (V : vm_env) (sb : sandbox) (t : tool) (tcs : list test_case)
  : list exec_result * list event :=
  match tcs with
  | [] => ([], [])
  | tc :: r =>
      let (e, ev1) := testExecution V sb t tc in
      let (es, ev2) := run_tests V sb t r in
      (e :: es, (ev1 ++ ev2)%list)
  end.

(** [ToolSandbox.test(tool, testCases)] *)
Definition test (V : vm_env) (sb : sandbox) (t : tool) (testCases : list test_case)
  : test_result * list event :=
  if negb (truthy (handlerCode t)) then
    (TestResult false (Some "Invalid tool: missing handlerCode") None None None, [])
  else
    let scan := performSecurityScan V (handlerCode t) in
    if negb (scan_passed scan) then
      (TestResult false (Some "Security scan failed") (Some scan) None (Some []), [])
    else
      let code := wrapped (handlerCode t) in
      let compiled := script_compiles V code in
      if negb compiled then
        (TestResult false (Some "Compilation test failed") (Some scan) (Some false) (Some []),
         [EvCompile code])
      else
        let effective :=
          match testCases with
          | [] => match inputSchema t with
                  | Some s => Ok (generateDefaultTestCases s)
                  | None => Exn "Cannot read properties of undefined (reading 'properties')"
                  end
          | _ => Ok testCases
          end in
        match effective with
        | Exn m =>
            (TestResult false (Some m) (Some scan) (Some true) (Some []), [EvCompile code])
        | Ok tcs =>
            let (es, evs) := run_tests V sb t tcs in
            (TestResult (forallb e_passed es) None (Some scan) (Some true) (Some es),
             (EvCompile code :: evs)%list)
        end.

(** [ToolSandbox.execute(handlerCode, args, options)]. *)
Definition execute (V : vm_env) (sb : sandbox) (hc : jsval) (args : jsval) (o : options)
  : exc jsval * list event :=
  let timeout := Z.min (num_or (opt_timeout o) (defaultTimeout sb)) (defaultTimeout sb) in
  let scan := performSecurityScan V hc in
  if negb (scan_passed scan) then
    (Exn ("Security violation: " ++ String.concat ", " (map p_name (scan_issues scan))), [])
  else
    let code := wrapped hc in
    if negb (script_compiles V code) then (Exn "SyntaxError", [EvCompile code])
    else
      let evs := [EvCompile code; EvRunScript code 1000] in
      match run_in_context V code with
      | LoadThrows m => (Exn ("Failed to compile handler: " ++ m), evs)
      | NotAFunction => (Exn "Handler is not a function", evs)
      | Handler h =>
          (race (h args) timeout "Execution timeout - code took too long to execute",
           (evs ++ [EvCall args timeout])%list)
      end.

End Sandbox.

(* ================================================================== *)
(** ** ToolGenerator.analyzeDiscoveryResults *)

Module Generator.

(** A discovery candidate. [toolImplementation] is [null] or the code
    excerpt object extracted from the repository. Relevance scores are
    numbers that the code only compares; they are integers here. *)
Record candidate := Candidate {
  c_name : string;
  relevanceScore : Z;
  toolImplementation : option string;
  c_source : string
}.

Record discovery := Discovery { d_source : string; d_results : option (list candidate) }.

Definition with_source (src : string) (r : candidate) : candidate :=
  Candidate (c_name r) (relevanceScore r) (toolImplementation r) src.

(** The loop collecting [{...r, source: discovery.source}]. *)
Fixpoint allResults (ds : list discovery) : list candidate :=
  match ds with
  | [] => []
  | d :: r =>
      match d_results d with
      | Some (c :: cs) => (map (with_source (d_source d)) (c :: cs) ++ allResults r)%list
      | _ => allResults r
      end
  end.

(** [Array.prototype.sort] with [(a, b) => b.relevanceScore -
    a.relevanceScore]: a stable sort, highest score first. *)
Fixpoint insert_desc (x : candidate) (l : list candidate) : list candidate :=
  match l with
  | [] => [x]
  | y :: r => if Z.leb (relevanceScore y) (relevanceScore x) then x :: y :: r
              else y :: insert_desc x r
  end.

Fixpoint sort_desc (l : list candidate) : list candidate :=
  match l with
  | [] => []
  | x :: r => insert_desc x (sort_desc r)
  end.

Record analysis := Analysis {
  canGenerate : bool;
  a_reason : option string;
  references : list candidate;
  suggestedApproach : string;
  bestMatch : option candidate
}.

Definition analyzeDiscoveryResults (ds : list discovery) : analysis :=
  match allResults ds with
  | [] => Analysis true (Some "No existing implementations found, will generate from scratch")
                   [] "ai-generated" None
  | all =>
      let topResults := firstn 3 (sort_desc all) in
      match topResults with
      | [] => Analysis true None [] "ai-generated" None
      | best :: _ =>
          Analysis true None topResults
            (match toolImplementation best with
             | Some _ => "adapt-existing"
             | None => "ai-generated"
             end)
            (Some best)
      end
  end.

End Generator.

(* ================================================================== *)
(** ** ToolGenerator.generateToolCode / parseGeneratedTool /
    validateHandlerSecurity *)

Module GeneratorCode.
Import Sandbox.

(** What the generator uses from its surroundings: the provider's
    [chat] answer for a prompt at a given attempt (or the error it
    throws), the JSON text [parseGeneratedTool] cuts out of the answer
    (the fenced block, else the outermost braces, else the whole text),
    [JSON.parse] on it, and [RegExp.prototype.test] on a regex source and
    a value. *)
Record gen_env := GenEnv {
  chat : string -> nat -> exc string;
  extract_json : string -> string;
  json_parse : string -> exc jsval;
  gen_test : string -> jsval -> bool
}.

Record gen_tool := GenTool {
  g_name : jsval;
  g_description : jsval;
  g_category : jsval;
  g_inputSchema : jsval;
  g_handlerCode : jsval
}.

(** [{success: true, tool}] or [{success: false, error}]. *)
Inductive gen_result :=
| GenOk (t : gen_tool)
| GenErr (error : string).

Definition maxRetries : nat := 3.

(** The regex sources of [validateHandlerSecurity], verbatim. *)
Definition handlerPatterns : list string := [
  "require\s*\(";
  "import\s+";
  "process\.";
  "child_process";
  "exec\s*\(";
  "spawn\s*\(";
  "eval\s*\(";
  "Function\s*\(";
  "fs\.";
  "__dirname";
  "__filename";
  "\.env";
  "globalThis";
  "Reflect\.";
  "Proxy"
].

(** [validateHandlerSecurity(handlerCode)]: [None] is [{safe: true}],
    [Some reason] is [{safe: false, reason}] for the first pattern that
    matches ([pattern.toString()] is the source between slashes). *)
Fixpoint first_dangerous (G : gen_env) (ps : list string) (hc : jsval) : option string :=
  match ps with
  | [] => None
  | p :: r => if gen_test G p hc then Some ("Dangerous pattern detected: /" ++ p ++ "/")
              else first_dangerous G r hc
  end.

Definition validateHandlerSecurity (G : gen_env) (hc : jsval) : option string :=
  first_dangerous G handlerPatterns hc.

(** [tool.k] on a value already known not to be [null]/[undefined]. *)
Definition field (v : jsval) (k : string) : jsval :=
  match get_prop v k with Ok x => x | Exn _ => JUndef end.

Definition parse_failure (m : string) : gen_result :=
  GenErr ("Failed to parse generated tool: " ++ m).

(** [parseGeneratedTool(responseContent, expectedName)]; the try/catch
    turns a [JSON.parse] error or a [TypeError] on [tool.name] into
    [parse_failure]. *)
Definition parseGeneratedTool (G : gen_env) (responseContent : string) : gen_result :=
  match json_parse G (extract_json G responseContent) with
  | Exn m => parse_failure m
  | Ok tool =>
      match get_prop tool "name" with
      | Exn m => parse_failure m
      | Ok name =>
          if negb (truthy name) || negb (truthy (field tool "description")) ||
             negb (truthy (field tool "inputSchema")) || negb (truthy (field tool "handlerCode"))
          then GenErr "Missing required fields in generated tool"
          else
            match validateHandlerSecurity G (field tool "handlerCode") with
            | Some reason => GenErr ("Security validation failed: " ++ reason)
            | None =>
                GenOk (GenTool name (field tool "description")
                         (if truthy (field tool "category") then field tool "category"
                          else JStr "generated")
                         (field tool "inputSchema") (field tool "handlerCode"))
            end
      end
  end.

(** One iteration of the retry loop: a thrown [chat] error and a
    failed parse both become [lastError]. *)
Definition attempt (G : gen_env) (prompt : string) (n : nat) : gen_result :=
  match chat G prompt n with
  | Exn m => GenErr m
  | Ok content => parseGeneratedTool G content
  end.

(** The loop [for (attempt = 1; attempt <= maxRetries; attempt++)],
    returning the outcome and the attempts that called the provider. *)
Fixpoint attempts (G : gen_env) (prompt : string) (ns : list nat) (lastError : string)
  : gen_result * list nat :=
  match ns with
  | [] => (GenErr ("Failed after 3 attempts: " ++ lastError), [])
  | n :: r =>
      match attempt G prompt n with
      | GenOk t => (GenOk t, [n])
      | GenErr e => let (o, calls) := attempts G prompt r e in (o, n :: calls)
      end
  end.

(** [generateToolCode] once the prompt is built ([lastError] starts as
    [null]). *)
Definition generateToolCode (G : gen_env) (prompt : string) : gen_result * list nat :=
  attempts G prompt (seq 1 maxRetries) "null".

End GeneratorCode.

(* ================================================================== *)
(** ** ToolRegistry.execute / evolveAndExecute *)

Module Registry.
Import Sandbox.

(** Collaborators of the registry: the built-in tools, the dynamic
    registry of generated tools, the orchestrator's answer to
    [evolve(name)] (or the exception it raises), [JSON.stringify(v, null,
    2)], and the auto-evolve switch. *)
Record registry_env := RegistryEnv {
  builtin_names : list string;
  builtin_exec : string -> jsval -> exc jsval;
  dynamic_has : string -> bool;
  dynamic_execute : string -> jsval -> exc jsval;
  registerTool : exc unit;
  evolve_outcome : exc Orchestrator.evolve_result;
  stringify : jsval -> string;
  autoEvolveEnabled : bool;
  evolve_duration : jsval
}.

(** [context.autoEvolve]: [None] when absent. *)
Record context := Context { autoEvolve : option bool }.

Definition opt_str (o : option string) : jsval :=
  match o with Some s => JStr s | None => JUndef end.

(** [{content: [{type: 'text', text: JSON.stringify(payload, null, 2)}], isError: true}] *)
Definition error_response (R : registry_env) (payload : list (string * jsval)) : jsval :=
  JObj [("content", JArr [JObj [("type", JStr "text");
                                ("text", JStr (stringify R (JObj payload)))]]);
        ("isError", JBool true)].

Definition suggestion : string :=
  "The requested tool could not be automatically created. Please try a different tool name or provide more context.".

(** Decimal digits of an array index or string position. *)
Fixpoint digits_aux (fuel n : nat) (acc : string) : string :=
  match fuel with
  | O => acc
  | S f =>
      let acc' := String (ascii_of_nat (48 + n mod 10)) acc in
      if (n <? 10)%nat then acc' else digits_aux f (n / 10) acc'
  end.

Definition index_key (n : nat) : string := digits_aux (S n) n "".

Fixpoint indexed {A} (i : nat) (l : list A) : list (string * A) :=
  match l with
  | [] => []
  | x :: r => (index_key i, x) :: indexed (S i) r
  end.

(** The own enumerable properties copied by an object spread [{...v}]:
    an object's own keys (a ["__proto__"] key included, as a data
    property), an array's indices, a string's characters; nothing for
    [undefined], [null], booleans and numbers. *)
Definition spread (v : jsval) : list (string * jsval) :=
  match v with
  | JObj kvs => kvs
  | JArr l => indexed 0 l
  | JStr s => indexed 0 (map (fun c => JStr (String c EmptyString)) (list_ascii_of_string s))
  | _ => []
  end.

(** [{...result, _evolution: {newTool, evolutionId, duration}}]: the
    literal's own properties are defined, not assigned, so
    [_evolution] replaces a spread key of that name in place. *)
Definition with_evolution (result : jsval) (r : Orchestrator.evolve_result) (duration : jsval) : jsval :=
  let meta := JObj [("newTool", JBool true);
                    ("evolutionId", JStr (Orchestrator.evolutionId r));
                    ("duration", duration)] in
  JObj (obj_put "_evolution" meta (spread result)).

Definition evolution_error (R : registry_env) (name m : string) : jsval :=
  error_response R [("error", JStr "Tool evolution error"); ("toolName", JStr name);
                    ("message", JStr m)].

Definition evolveAndExecute (R : registry_env) (name : string) (args : jsval) : exc jsval :=
  match evolve_outcome R with
  | Exn m => Ok (evolution_error R name m)
  | Ok r =>
      if negb (Orchestrator.success r) then
        Ok (error_response R
              [("error", JStr "Tool evolution failed"); ("toolName", JStr name);
               ("reason", opt_str (Orchestrator.error r));
               ("stage", opt_str (Orchestrator.stage r));
               ("suggestion", JStr suggestion)])
      else
        match registerTool R with
        | Exn m => Ok (evolution_error R name m)
        | Ok _ =>
            match dynamic_execute R name args with
            | Exn m => Ok (evolution_error R name m)
            | Ok result => Ok (with_evolution result r (evolve_duration R))
            end
        end
  end.

Definition execute (R : registry_env) (name : string) (args : jsval) (ctx : context) : exc jsval :=
  if existsb (String.eqb name) (builtin_names R) then builtin_exec R name args
  else if dynamic_has R name then dynamic_execute R name args
  else
    let shouldEvolve :=
      match autoEvolve ctx with Some false => false | _ => true end && autoEvolveEnabled R in
    if shouldEvolve then evolveAndExecute R name args
    else Exn ("Tool not found: " ++ name).

(** [ToolRegistry.register/unregister/get/has] over the [builtinTools]
    map (an insertion-ordered association list) and the dynamic
    registry. *)
Record tool_spec := ToolSpec {
  ts_name : option string;
  ts_description : option string;
  ts_inputSchema : option schema;
  ts_handler : option (jsval -> exc jsval);
  ts_category : option string;
  ts_requiresAuth : option jsval
}.

Record tool_def := ToolDef {
  td_name : string;
  td_description : string;
  td_inputSchema : schema;
  td_handler : jsval -> exc jsval;
  td_category : string;
  td_requiresAuth : bool;
  td_isBuiltin : bool
}.

Definition builtin_map := list (string * tool_def).

Fixpoint lookup (k : string) (m : builtin_map) : option tool_def :=
  match m with
  | [] => None
  | (k', v) :: r => if String.eqb k k' then Some v else lookup k r
  end.

Fixpoint map_set (k : string) (v : tool_def) (m : builtin_map) : builtin_map :=
  match m with
  | [] => [(k, v)]
  | (k', v') :: r => if String.eqb k k' then (k, v) :: r else (k', v') :: map_set k v r
  end.

Definition map_delete (k : string) (m : builtin_map) : builtin_map :=
  filter (fun kv => negb (String.eqb (fst kv) k)) m.

(** [s || d] for an optional string. *)
Definition str_or (o : option string) (d : string) : string :=
  match o with Some s => if String.eqb s "" then d else s | None => d end.

Definition default_inputSchema : schema :=
  Schema (Some "object") None None None None (Some []) None.

Definition register (builtinTools : builtin_map) (tool : tool_spec) : exc builtin_map :=
  match ts_name tool, ts_handler tool with
  | Some name, Some handler =>
      if String.eqb name "" then Exn "Tool must have a name and handler"
      else
        let toolDef :=
          ToolDef name (str_or (ts_description tool) "")
            (match ts_inputSchema tool with Some s => s | None => default_inputSchema end)
            handler (str_or (ts_category tool) "general")
            (match ts_requiresAuth tool with Some (JBool false) => false | _ => true end)
            true in
        Ok (map_set name toolDef builtinTools)
  | _, _ => Exn "Tool must have a name and handler"
  end.

(** [unregister(name)]: [Map.prototype.delete] reports whether the key
    was there. *)
Definition unregister (builtinTools : builtin_map) (name : string) : bool * builtin_map :=
  match lookup name builtinTools with
  | Some _ => (true, map_delete name builtinTools)
  | None => (false, builtinTools)
  end.

Record dynamic_registry := DynamicRegistry {
  dyn_has : string -> bool;
  dyn_get : string -> jsval
}.

Inductive found :=
| FoundBuiltin (d : tool_def)
| FoundGenerated (v : jsval)
| NotFound.

Definition get (builtinTools : builtin_map) (D : dynamic_registry) (name : string) : found :=
  match lookup name builtinTools with
  | Some d => FoundBuiltin d
  | None => if dyn_has D name then FoundGenerated (dyn_get D name) else NotFound
  end.

Definition has (builtinTools : builtin_map) (D : dynamic_registry) (name : string) : bool :=
  match lookup name builtinTools with Some _ => true | None => false end || dyn_has D name.

End Registry.

(* ################################################################## *)
(** * Properties *)

Ltac bool_lia :=
  repeat (rewrite ?orb_true_iff, ?andb_true_iff, ?Nat.leb_le, ?Nat.eqb_eq in * );
  lia.

Module SanitizeFacts.

Lemma name_char_not_ws c : is_name_char c = true -> is_ws c = false.
Proof.
  unfold is_name_char, is_ws; set (n := nat_of_ascii c); intro H.
  apply not_true_is_false; intro H'; bool_lia.
Qed.

Lemma name_char_lower c : is_name_char c = true -> to_lower c = c.
Proof.
  unfold is_name_char, to_lower; set (n := nat_of_ascii c); intro H.
  destruct ((65 <=? n)%nat && (n <=? 90)%nat) eqn:E; [bool_lia | reflexivity].
Qed.

Lemma replace_char_name c : is_name_char (replace_char c) = true.
Proof.
  unfold replace_char; destruct (is_name_char c) eqn:E; [exact E | reflexivity].
Qed.

Lemma trim_start_names l : Forall (fun c => is_name_char c = true) l -> trim_start l = l.
Proof.
  destruct l as [|c r]; intro H; [reflexivity|].
  inversion H; subst; simpl; rewrite name_char_not_ws; auto.
Qed.

Lemma sanitize_chars s :
  Forall (fun c => is_name_char c = true)
    (list_ascii_of_string (sanitize s)).
Proof.
  unfold sanitize; rewrite list_ascii_of_string_of_list_ascii.
  apply Forall_forall; intros c Hc; apply in_map_iff in Hc as [c' [<- _]].
  apply replace_char_name.
Qed.

(** Sanitizing is idempotent: a lock key is its own sanitized name. *)
Lemma sanitize_idem s : sanitize (sanitize s) = sanitize s.
Proof.
  pose proof (sanitize_chars s) as H.
  remember (list_ascii_of_string (sanitize s)) as l eqn:El.
  unfold sanitize at 1; rewrite <- El.
  assert (Ht : trim l = l).
  { unfold trim; rewrite (trim_start_names l H).
    rewrite (trim_start_names (rev l)) by (apply Forall_rev; exact H).
    apply rev_involutive. }
  rewrite Ht.
  rewrite (map_ext_in to_lower id l), map_id
    by (intros c Hc; apply name_char_lower; exact (proj1 (Forall_forall _ _) H c Hc)).
  rewrite (map_ext_in replace_char id l), map_id.
  - rewrite El; apply string_of_list_ascii_of_string.
  - intros c Hc; unfold replace_char, id.
    rewrite (proj1 (Forall_forall _ _) H c Hc); reflexivity.
Qed.

End SanitizeFacts.

Module JsMapFacts.
Import JsMap.

Lemma get_set_same k v m : get k (set k v m) = Some v.
Proof.
  induction m as [|[k' v'] r IH]; simpl.
  - rewrite String.eqb_refl; reflexivity.
  - destruct (String.eqb k k') eqn:E; simpl.
    + rewrite String.eqb_refl; reflexivity.
    + rewrite E; exact IH.
Qed.

Lemma get_delete_other k n m : k <> n -> get k (delete n m) = get k m.
Proof.
  intro Hne; induction m as [|[k' v'] r IH]; simpl; [reflexivity|].
  destruct (String.eqb n k') eqn:E; simpl.
  - apply String.eqb_eq in E; subst k'.
    rewrite (proj2 (String.eqb_neq k n) Hne); exact IH.
  - destruct (String.eqb k k'); [reflexivity | exact IH].
Qed.

Lemma get_None_keys k m : get k m = None <-> ~ In k (keys m).
Proof.
  induction m as [|[k' v'] r IH]; simpl; [tauto|].
  destruct (String.eqb k k') eqn:E.
  - apply String.eqb_eq in E; subst; split; [discriminate | tauto].
  - apply String.eqb_neq in E; rewrite IH; intuition congruence.
Qed.

Lemma keys_set_new k v m : get k m = None -> keys (set k v m) = (keys m ++ [k])%list.
Proof.
  induction m as [|[k' v'] r IH]; simpl; [reflexivity|].
  destruct (String.eqb k k'); [discriminate|].
  intro H; simpl; f_equal; exact (IH H).
Qed.

Lemma in_keys_delete x n m : In x (keys (delete n m)) <-> In x (keys m) /\ x <> n.
Proof.
  induction m as [|[k' v'] r IH]; simpl; [tauto|].
  destruct (String.eqb n k') eqn:E; simpl.
  - apply String.eqb_eq in E; subst k'; rewrite IH; intuition congruence.
  - apply String.eqb_neq in E; rewrite IH; intuition congruence.
Qed.

Lemma nodup_keys_delete n m : NoDup (keys m) -> NoDup (keys (delete n m)).
Proof.
  induction m as [|[k' v'] r IH]; simpl; intro H; [constructor|].
  inversion H as [|? ? Hnin Hnd]; subst.
  destruct (String.eqb n k'); simpl; [|constructor]; auto.
  rewrite in_keys_delete; tauto.
Qed.

Lemma size_keys m : size m = length (keys m).
Proof. unfold size, keys; rewrite length_map; reflexivity. Qed.

Lemma size_delete_le n m : (size (delete n m) <= size m)%nat.
Proof.
  unfold size, delete; induction m as [|kv r IH]; simpl; [lia|].
  destruct (negb _); simpl; lia.
Qed.

End JsMapFacts.

Module OrchestratorFacts.
Import Orchestrator JsMapFacts SanitizeFacts.

(** Two runs agree when, from states with the same lock map, they give
    the same outcome and the same lock map (audit rows may differ). *)
Definition agree {A} (m1 m2 : M A) : Prop :=
  forall s1 s2, activeEvolutions s1 = activeEvolutions s2 ->
    fst (m1 s1) = fst (m2 s2) /\
    activeEvolutions (snd (m1 s1)) = activeEvolutions (snd (m2 s2)).

Lemma agree_ret {A} (a : A) : agree (ret a) (ret a).
Proof. intros s1 s2 H; simpl; auto. Qed.

Lemma agree_lift {A} (x : exc A) : agree (lift x) (lift x).
Proof. intros s1 s2 H; simpl; auto. Qed.

Lemma agree_modify f : agree (modify_active f) (modify_active f).
Proof. intros s1 s2 H; simpl; rewrite H; auto. Qed.

Lemma agree_log E1 E2 n st stt : agree (logStage E1 n st stt) (logStage E2 n st stt).
Proof.
  intros s1 s2 H; unfold logStage.
  destruct (store_ok E1 _), (store_ok E2 _); simpl; auto.
Qed.

Lemma agree_bind {A B} (m1 m2 : M A) (k1 k2 : A -> M B) :
  agree m1 m2 -> (forall a, agree (k1 a) (k2 a)) -> agree (bind m1 k1) (bind m2 k2).
Proof.
  intros Hm Hk s1 s2 H; unfold bind.
  destruct (Hm s1 s2 H) as [Hr Ha].
  destruct (m1 s1) as [[a|e] s1'], (m2 s2) as [[a'|e'] s2']; simpl in *;
    try discriminate.
  - injection Hr as ->; apply Hk; exact Ha.
  - injection Hr as ->; auto.
Qed.

Lemma agree_try {A} (m1 m2 : M A) (h1 h2 : string -> M A) :
  agree m1 m2 -> (forall e, agree (h1 e) (h2 e)) -> agree (try_catch m1 h1) (try_catch m2 h2).
Proof.
  intros Hm Hh s1 s2 H; unfold try_catch.
  destruct (Hm s1 s2 H) as [Hr Ha].
  destruct (m1 s1) as [[a|e] s1'], (m2 s2) as [[a'|e'] s2']; simpl in *;
    try discriminate.
  - injection Hr as ->; auto.
  - injection Hr as ->; apply Hh; exact Ha.
Qed.

Ltac agree_tac :=
  repeat first
    [ apply agree_try; [ | intro ]
    | apply agree_bind; [ | intro ]
    | apply agree_log | apply agree_ret | apply agree_lift | apply agree_modify
    | match goal with |- agree (if ?b then _ else _) _ => destruct b end ].

Lemma body_agree E1 E2 n id :
  discovery E1 = discovery E2 -> generation E1 = generation E2 ->
  testing E1 = testing E2 -> registration E1 = registration E2 ->
  agree (evolve_body E1 n id) (evolve_body E2 n id).
Proof.
  intros Hd Hg Ht Hr; unfold evolve_body, runDiscovery, runGeneration, runTesting,
    runRegistration; rewrite Hd, Hg, Ht, Hr; agree_tac.
Qed.

Lemma evolve_agree E1 E2 n id :
  discovery E1 = discovery E2 -> generation E1 = generation E2 ->
  testing E1 = testing E2 -> registration E1 = registration E2 ->
  agree (evolve E1 n id) (evolve E2 n id).
Proof.
  intros Hd Hg Ht Hr s1 s2 H; unfold evolve; rewrite H.
  destruct (evolve_entry (activeEvolutions s2) n id) as [r|k a'].
  - simpl; auto.
  - apply body_agree; auto.
Qed.

(** Every path of the body ends with [activeEvolutions.delete(toolName)]
    and no path throws. *)
Lemma evolve_body_active E n id s :
  activeEvolutions (snd (evolve_body E n id s)) = JsMap.delete n (activeEvolutions s) /\
  exists r, fst (evolve_body E n id s) = Ok r.
Proof.
  set (E0 := Env (fun _ => false) (discovery E) (generation E) (testing E) (registration E)).
  destruct (body_agree E E0 n id eq_refl eq_refl eq_refl eq_refl s s eq_refl) as [Hr Ha].
  rewrite Hr, Ha; clear Hr Ha; subst E0; destruct s as [a l].
  destruct (discovery E) as [[]|e1]; [|cbv; eauto].
  destruct (generation E) as [[[] ge]|e2]; [|cbv; eauto|cbv; eauto].
  destruct (testing E) as [[]|e3]; [|cbv; eauto|cbv; eauto].
  destruct (registration E) as [rid|e4]; cbv; eauto.
Qed.

Lemma evolve_entry_accept a n id k a' :
  evolve_entry a n id = Accept k a' ->
  k = sanitize n /\ JsMap.get k a = None /\ (JsMap.size a < 5)%nat /\ a' = JsMap.set k id a.
Proof.
  unfold evolve_entry; destruct (String.eqb n ""); [discriminate|].
  destruct (JsMap.get (sanitize n) a) eqn:G; [discriminate|].
  destruct (MAX_CONCURRENT_EVOLUTIONS <=? JsMap.size a)%nat eqn:C; [discriminate|].
  intro H; injection H as <- <-; unfold MAX_CONCURRENT_EVOLUTIONS in C.
  apply Nat.leb_gt in C; auto.
Qed.

End OrchestratorFacts.

Module OrchestratorClaims.
Import Orchestrator JsMapFacts SanitizeFacts OrchestratorFacts.

(** Claim C1 (code_bug). A call that takes the lock stores it under
    [sanitize toolName] but releases [toolName]; whenever the two differ
    (any name with an upper-case letter, a space, a dash, ...), the lock
    is still held with this call's id after the call has returned,
    whatever the outcome of the stages. *)
Theorem evolve_keeps_lock_of_unsanitized_name E toolName evoId s k a' :
  evolve_entry (activeEvolutions s) toolName evoId = Accept k a' ->
  sanitize toolName <> toolName ->
  JsMap.get (sanitize toolName) (activeEvolutions (snd (evolve E toolName evoId s)))
  = Some evoId.
Proof.
  intros Hacc Hne; pose proof (evolve_entry_accept _ _ _ _ _ Hacc) as (-> & _ & _ & ->).
  unfold evolve; rewrite Hacc.
  destruct (evolve_body_active E toolName evoId
              (State (JsMap.set (sanitize toolName) evoId (activeEvolutions s)) (creationLog s)))
    as [-> _]; simpl.
  rewrite get_delete_other by exact Hne; apply get_set_same.
Qed.

(** The all-successful run of [evolve("Foo")]: the lock ["foo"] is taken,
    the call succeeds, the lock survives, and the next [evolve("Foo")]
    is refused as "already in progress" with the finished run's id. *)
Lemma evolve_keeps_lock_of_unsanitized_name_witness :
  evolve_entry [] "Foo" "e1" = Accept "foo" [("foo", "e1")] /\
  sanitize "Foo" <> "Foo" /\
  JsMap.get (sanitize "Foo")
    (activeEvolutions (snd (evolve (Env (fun _ => true) (Ok tt) (Ok (true, "")) (Ok true) (Ok "t1"))
                               "Foo" "e1" (State [] [])))) = Some "e1" /\
  fst (evolve (Env (fun _ => true) (Ok tt) (Ok (true, "")) (Ok true) (Ok "t1")) "Foo" "e2"
         (snd (evolve (Env (fun _ => true) (Ok tt) (Ok (true, "")) (Ok true) (Ok "t1"))
                 "Foo" "e1" (State [] []))))
  = Ok (EvolveResult false "e1" None (Some "Evolution already in progress for foo")).
Proof.
  split; [reflexivity|].
  split; [vm_compute; discriminate|].
  split; [|vm_compute; reflexivity].
  apply (evolve_keeps_lock_of_unsanitized_name _ "Foo" "e1" (State [] []) "foo" [("foo", "e1")]).
  - reflexivity.
  - vm_compute; discriminate.
Defined.

(** Claim C6. While [sanitize toolName] is locked by a running evolution
    with id [running], [evolve(toolName)] returns at once with
    [success = false] and [evolutionId = running], leaving the state (the
    lock map and the audit rows) untouched. *)
Theorem evolve_refuses_duplicate E toolName evoId s running :
  toolName <> "" ->
  JsMap.get (sanitize toolName) (activeEvolutions s) = Some running ->
  evolve E toolName evoId s =
  (Ok (EvolveResult false running None
         (Some ("Evolution already in progress for " ++ sanitize toolName))), s).
Proof.
  intros Hn Hg; unfold evolve, evolve_entry.
  rewrite (proj2 (String.eqb_neq _ _) Hn), Hg; reflexivity.
Qed.

Lemma evolve_refuses_duplicate_witness :
  "Foo" <> "" /\
  JsMap.get (sanitize "Foo") [("foo", "e1")] = Some "e1" /\
  evolve (Env (fun _ => true) (Ok tt) (Ok (true, "")) (Ok true) (Ok "t1")) "Foo" "e2"
    (State [("foo", "e1")] []) =
  (Ok (EvolveResult false "e1" None
         (Some ("Evolution already in progress for " ++ sanitize "Foo"))),
   State [("foo", "e1")] []).
Proof.
  split; [discriminate|]; split; [reflexivity|].
  apply evolve_refuses_duplicate; [discriminate | reflexivity].
Defined.

(** Claim C10. Audit-log failures are invisible to the caller: whatever
    the store does with each row ([store_ok] replaced by any [store']),
    [evolve] returns the same result and leaves the same lock map; it
    never throws; and a run whose every row fails to persist still
    succeeds when the stages do. *)
Theorem evolve_ignores_log_store_failures E store' toolName evoId s :
  let E' := Env store' (discovery E) (generation E) (testing E) (registration E) in
  fst (evolve E toolName evoId s) = fst (evolve E' toolName evoId s) /\
  activeEvolutions (snd (evolve E toolName evoId s)) =
    activeEvolutions (snd (evolve E' toolName evoId s)) /\
  (exists r, fst (evolve E toolName evoId s) = Ok r) /\
  fst (evolve (Env (fun _ => false) (Ok tt) (Ok (true, "")) (Ok true) (Ok "t1"))
         "Foo" "e1" (State [] []))
  = Ok (EvolveResult true "e1" None None).
Proof.
  intro E'.
  destruct (evolve_agree E E' toolName evoId eq_refl eq_refl eq_refl eq_refl s s eq_refl)
    as [Hr Ha].
  split; [exact Hr|]; split; [exact Ha|]; split; [|reflexivity].
  unfold evolve; destruct (evolve_entry (activeEvolutions s) toolName evoId) as [r|k a'].
  - simpl; eauto.
  - apply evolve_body_active.
Qed.

(** Invariant of the interleaved calls: lock keys are unique, every
    in-flight call holds the lock [sanitize toolName] and no two calls
    hold the same one, and the map has at most 5 entries. *)
Definition world_inv (w : world) : Prop :=
  NoDup (JsMap.keys (wactive w)) /\
  NoDup (map snd (inflight w)) /\
  (forall n k, In (n, k) (inflight w) -> k = sanitize n /\ In k (JsMap.keys (wactive w))) /\
  (JsMap.size (wactive w) <= MAX_CONCURRENT_EVOLUTIONS)%nat.

Lemma world_inv_init : world_inv (World [] []).
Proof.
  split; [constructor|]; split; [constructor|]; split.
  - intros n k [].
  - unfold JsMap.size, MAX_CONCURRENT_EVOLUTIONS; simpl; lia.
Qed.

Lemma world_inv_step w w' : world_inv w -> step w w' -> world_inv w'.
Proof.
  intros (Hk & Hf & Hin & Hs) St; destruct St as [w n id r E|w n id k a' E|w l1 l2 n k E].
  - exact (conj Hk (conj Hf (conj Hin Hs))).
  - destruct (evolve_entry_accept _ _ _ _ _ E) as (-> & G & L & ->); simpl.
    pose proof (proj1 (get_None_keys _ _) G) as Nk.
    refine (conj _ (conj _ (conj _ _))); simpl.
    + rewrite keys_set_new by exact G.
      apply NoDup_app; auto using NoDup_cons, NoDup_nil.
      intros x Hx1 Hx2; destruct Hx2 as [<-|[]]; contradiction.
    + constructor; auto.
      intro Hin'; apply in_map_iff in Hin' as [[n' k'] [Heq Hm]]; simpl in Heq; subst k'.
      apply Nk, (Hin n' _ Hm).
    + rewrite keys_set_new by exact G.
      intros n' k' [Heq|Hm].
      * injection Heq as <- <-; split; [reflexivity|].
        apply in_or_app; simpl; auto.
      * destruct (Hin n' k' Hm); split; [assumption|].
        apply in_or_app; left; assumption.
    + rewrite size_keys, keys_set_new, length_app by exact G.
      rewrite size_keys in L; unfold MAX_CONCURRENT_EVOLUTIONS; simpl; lia.
  - simpl; rewrite E in Hf, Hin.
    rewrite map_app in Hf; simpl in Hf.
    refine (conj _ (conj _ (conj _ _))); simpl.
    + apply nodup_keys_delete; exact Hk.
    + rewrite map_app; exact (NoDup_remove_1 _ _ _ Hf).
    + intros n' k' Hm.
      assert (Hm' : In (n', k') (l1 ++ (n, k) :: l2)%list)
        by (apply in_app_or in Hm as [?|?]; apply in_or_app; simpl; tauto).
      destruct (Hin n' k' Hm') as [Hk' Hkin].
      split; [exact Hk'|].
      apply in_keys_delete; split; [exact Hkin|].
      intros ->.
      assert (Hself : In (n, k) (l1 ++ (n, k) :: l2)%list)
        by (apply in_or_app; right; left; reflexivity).
      destruct (Hin n k Hself) as [Hkn _].
      assert (k = n) as Hkn'.
      { rewrite Hkn, Hk'; apply sanitize_idem. }
      apply (NoDup_remove_2 _ _ _ Hf); rewrite <- map_app.
      apply in_map_iff; exists (n', n); auto.
    + pose proof (size_delete_le n (wactive w)); lia.
Qed.

Lemma reachable_inv w : reachable w -> world_inv w.
Proof.
  induction 1; [apply world_inv_init | eapply world_inv_step; eauto].
Qed.

(** Claim C7. (1) When 5 locks are held, a call for a name that is not
    locked returns at once with the cap error and leaves the state
    untouched. (2) In every interleaving of calls, at most 5 calls are
    in flight. *)
Theorem evolve_max_concurrent :
  (forall E toolName evoId s,
     toolName <> "" ->
     JsMap.get (sanitize toolName) (activeEvolutions s) = None ->
     (MAX_CONCURRENT_EVOLUTIONS <= JsMap.size (activeEvolutions s))%nat ->
     evolve E toolName evoId s =
     (Ok (EvolveResult false evoId None (Some "Maximum concurrent evolutions (5) reached")), s)) /\
  (forall w, reachable w -> (length (inflight w) <= MAX_CONCURRENT_EVOLUTIONS)%nat).
Proof.
  split.
  - intros E n id s Hn G C; unfold evolve, evolve_entry.
    rewrite (proj2 (String.eqb_neq _ _) Hn), G.
    apply Nat.leb_le in C; rewrite C; reflexivity.
  - intros w R; destruct (reachable_inv w R) as (Hk & Hf & Hin & Hs).
    rewrite <- (length_map snd (inflight w)).
    transitivity (length (JsMap.keys (wactive w))); [|rewrite <- size_keys; exact Hs].
    apply NoDup_incl_length; [exact Hf|].
    intros k Hk'; apply in_map_iff in Hk' as [[n k0] [Heq Hm]]; simpl in Heq; subst k0.
    apply (Hin n k Hm).
Qed.

Definition five_locks : JsMap.t :=
  [("a", "1"); ("b", "2"); ("c", "3"); ("d", "4"); ("e", "5")].

Lemma evolve_max_concurrent_witness :
  evolve (Env (fun _ => true) (Ok tt) (Ok (true, "")) (Ok true) (Ok "t1")) "f" "e6"
    (State five_locks []) =
  (Ok (EvolveResult false "e6" None (Some "Maximum concurrent evolutions (5) reached")),
   State five_locks []) /\
  (length (inflight (World [("x", "1")] [("x", "x")])) <= MAX_CONCURRENT_EVOLUTIONS)%nat.
Proof.
  split.
  - apply (proj1 evolve_max_concurrent); [discriminate | reflexivity | vm_compute; lia].
  - apply (proj2 evolve_max_concurrent).
    apply (reach_step (World [] [])); [apply reach_init|].
    apply (step_accept (World [] []) "x" "1" "x" [("x", "1")]); reflexivity.
Defined.

End OrchestratorClaims.

Module SandboxFacts.
Import Sandbox.

Lemma obj_get_put_same k v kvs : obj_get k (obj_put k v kvs) = Some v.
Proof.
  induction kvs as [|[k' v'] r IH]; simpl.
  - rewrite String.eqb_refl; reflexivity.
  - destruct (String.eqb k k') eqn:E; simpl.
    + rewrite String.eqb_refl; reflexivity.
    + rewrite E; exact IH.
Qed.

Lemma obj_get_set_same k v kvs : k <> "__proto__" -> obj_get k (obj_set k v kvs) = Some v.
Proof.
  intro Hp; unfold obj_set; rewrite (proj2 (String.eqb_neq _ _) Hp); apply obj_get_put_same.
Qed.

Lemma obj_set_proto v kvs : obj_set "__proto__" v kvs = kvs.
Proof. reflexivity. Qed.

Lemma obj_get_put_other k k' v kvs : k <> k' -> obj_get k (obj_put k' v kvs) = obj_get k kvs.
Proof.
  intro Hne; induction kvs as [|[k0 v0] r IH]; simpl.
  - rewrite (proj2 (String.eqb_neq _ _) Hne); reflexivity.
  - destruct (String.eqb k' k0) eqn:E; simpl.
    + apply String.eqb_eq in E; subst k0.
      rewrite (proj2 (String.eqb_neq _ _) Hne); reflexivity.
    + destruct (String.eqb k k0); [reflexivity | exact IH].
Qed.

Lemma obj_get_set_other k k' v kvs : k <> k' -> obj_get k (obj_set k' v kvs) = obj_get k kvs.
Proof.
  intro Hne; unfold obj_set; destruct (String.eqb k' "__proto__"); [reflexivity|].
  induction kvs as [|[k0 v0] r IH]; simpl.
  - rewrite (proj2 (String.eqb_neq _ _) Hne); reflexivity.
  - destruct (String.eqb k' k0) eqn:E; simpl.
    + apply String.eqb_eq in E; subst k0.
      rewrite (proj2 (String.eqb_neq _ _) Hne); reflexivity.
    + destruct (String.eqb k k0); [reflexivity | exact IH].
Qed.

(** No write creates an own ["__proto__"] property. *)
Lemma obj_get_proto_set k v kvs :
  obj_get "__proto__" (obj_set k v kvs) = obj_get "__proto__" kvs.
Proof.
  destruct (String.eqb k "__proto__") eqn:E.
  - apply String.eqb_eq in E; subst; reflexivity.
  - apply obj_get_set_other; intro H; subst; rewrite String.eqb_refl in E; discriminate.
Qed.

Lemma fold_set_absent (f : string -> jsval) k l acc :
  ~ In k l ->
  obj_get k (fold_left (fun acc p => obj_set p (f p) acc) l acc) = obj_get k acc.
Proof.
  revert acc; induction l as [|p l IH]; intros acc Hn; simpl; [reflexivity|].
  rewrite IH by (intro; apply Hn; right; assumption).
  apply obj_get_set_other; intro; apply Hn; left; congruence.
Qed.

(** After [for (const p of l) obj[p] = f(p)], every [p] of [l] maps to
    [f p]. *)
Lemma fold_set_present (f : string -> jsval) k l acc :
  In k l -> k <> "__proto__" ->
  obj_get k (fold_left (fun acc p => obj_set p (f p) acc) l acc) = Some (f k).
Proof.
  intros Hk Hp; revert acc Hk; induction l as [|p l IH]; intros acc Hk; simpl; [destruct Hk|].
  destruct (in_dec String.string_dec k l) as [Hin|Hnin]; [apply IH; exact Hin|].
  destruct Hk as [<-|Hk]; [|contradiction].
  rewrite fold_set_absent by exact Hnin; apply obj_get_set_same; exact Hp.
Qed.

Lemma fold_set_proto (f : string -> jsval) l acc :
  obj_get "__proto__" (fold_left (fun acc p => obj_set p (f p) acc) l acc) =
  obj_get "__proto__" acc.
Proof.
  revert acc; induction l as [|p l IH]; intro acc; simpl; [reflexivity|].
  rewrite IH; apply obj_get_proto_set.
Qed.


(** In the usual range the timer fires after exactly the requested delay. *)
Lemma timer_delay_in_range t : (1 <= t <= 2147483647)%Z -> timer_delay t = t.
Proof.
  intros [H1 H2]; unfold timer_delay.
  rewrite (proj2 (Z.leb_le _ _) H1), (proj2 (Z.leb_le _ _) H2); reflexivity.
Qed.


End SandboxFacts.

Module SandboxClaims.
Import Sandbox SandboxFacts.




(** Claim C4 (code_bug evaluation). [new ToolSandbox({timeout: 60000})]
    keeps 60000 ms as [defaultTimeout]; [MAX_TIMEOUT] (30000) is never
    applied, so [test] races the handler call against a 60000 ms timer. *)
Lemma sandbox_timeout_exceeds_ceiling :
  let sb := new_sandbox (Options (Some 60000%Z) None) in
  let V := VmEnv (fun _ _ => false) (fun _ => true)
                 (fun _ => Handler (fun _ => Settles 1 (Ok (JStr "ok")))) in
  let t := Tool "echo" (JStr "async () => 'ok'")
                (Some (Schema (Some "object") None None None None None None)) in
  defaultTimeout sb = 60000%Z /\
  In (EvCall (JObj []) 60000) (snd (test V sb t [])) /\
  (MAX_TIMEOUT < 60000)%Z /\
  In (EvCall (JObj []) 60000) (snd (execute V sb (handlerCode t) (JObj []) (Options None None))).
Proof.
  vm_compute; split; [reflexivity|]; split; [auto 10|]; split; [reflexivity|auto 10].
Qed.

(** Claim C5, as the code has it. When the scan fails, [test] returns
    [passed = false] before any compilation or execution: no engine
    event, no compilation result. Two results are possible:
    - a falsy [handlerCode] (missing, [""], [0], [false], [null]) is
      caught by the first guard: the result is the early
      "Invalid tool: missing handlerCode" object, with no
      [securityScan], [compilationTest] or [executionTests] field;
    - a truthy one that fails the scan gives "Security scan failed",
      the failed scan and the empty [executionTests] list. *)
Theorem test_scan_short_circuit V sb t tcs :
  scan_passed (performSecurityScan V (handlerCode t)) = false ->
  snd (test V sb t tcs) = [] /\
  r_passed (fst (test V sb t tcs)) = false /\
  r_compilationTest (fst (test V sb t tcs)) = None /\
  (truthy (handlerCode t) = false ->
     fst (test V sb t tcs) =
     TestResult false (Some "Invalid tool: missing handlerCode") None None None) /\
  (truthy (handlerCode t) = true ->
     fst (test V sb t tcs) =
     TestResult false (Some "Security scan failed")
       (Some (performSecurityScan V (handlerCode t))) None (Some [])).
Proof.
  intro Hs; unfold test.
  destruct (truthy (handlerCode t)) eqn:Ht; simpl.
  - rewrite Hs; simpl.
    split; [reflexivity|]; split; [reflexivity|]; split; [reflexivity|].
    split; [discriminate | reflexivity].
  - split; [reflexivity|]; split; [reflexivity|]; split; [reflexivity|].
    split; [reflexivity | discriminate].
Qed.

Lemma test_scan_short_circuit_witness :
  let V := VmEnv (fun src _ => String.eqb src "\beval\s*\(") (fun _ => true) (fun _ => NotAFunction) in
  let t := Tool "bad" (JStr "async () => eval('1')") None in
  snd (test V (new_sandbox (Options None None)) t []) = [] /\
  fst (test V (new_sandbox (Options None None)) t []) =
  TestResult false (Some "Security scan failed")
    (Some (performSecurityScan V (handlerCode t))) None (Some []).
Proof.
  intros V t.
  destruct (test_scan_short_circuit V (new_sandbox (Options None None)) t [] eq_refl)
    as (H1 & _ & _ & _ & H5).
  split; [exact H1 | exact (H5 eq_refl)].
Defined.

(** Claim C5 (counterexample). The empty handler code fails the scan,
    yet the result of [test] has no [executionTests] list. *)
Lemma test_empty_code_has_no_execution_list :
  let V := VmEnv (fun _ _ => false) (fun _ => true) (fun _ => NotAFunction) in
  let t := Tool "empty" (JStr "") None in
  scan_passed (performSecurityScan V (handlerCode t)) = false /\
  r_executionTests (fst (test V (new_sandbox (Options None None)) t [])) = None.
Proof. split; reflexivity. Qed.




End SandboxClaims.

Module GeneratorFacts.
Import Generator.

Definition score_ge (x y : candidate) : Prop := (relevanceScore y <= relevanceScore x)%Z.

Lemma insert_desc_perm x l : Permutation (insert_desc x l) (x :: l).
Proof.
  induction l as [|y r IH]; simpl; [reflexivity|].
  destruct (Z.leb _ _); [reflexivity|].
  rewrite IH; apply perm_swap.
Qed.

Lemma sort_desc_perm l : Permutation (sort_desc l) l.
Proof.
  induction l as [|x r IH]; simpl; [reflexivity|].
  rewrite insert_desc_perm, IH; reflexivity.
Qed.

Lemma insert_desc_sorted x l : Sorted score_ge l -> Sorted score_ge (insert_desc x l).
Proof.
  induction 1 as [|y r Hs IH Hd]; simpl; [repeat constructor|].
  destruct (Z.leb (relevanceScore y) (relevanceScore x)) eqn:E.
  - constructor; [constructor; assumption|].
    constructor; unfold score_ge; apply Z.leb_le; exact E.
  - apply Z.leb_gt in E.
    constructor; [exact IH|].
    destruct r as [|z r]; simpl.
    + constructor; unfold score_ge; lia.
    + inversion Hd as [|? ? Hyz]; subst.
      destruct (Z.leb (relevanceScore z) (relevanceScore x)); constructor;
        unfold score_ge in *; lia.
Qed.

Lemma sort_desc_sorted l : Sorted score_ge (sort_desc l).
Proof.
  induction l as [|x r IH]; simpl; [constructor|].
  apply insert_desc_sorted; exact IH.
Qed.

Lemma sort_desc_nil l : sort_desc l = [] -> l = [].
Proof.
  intro H; pose proof (sort_desc_perm l) as P; rewrite H in P.
  apply Permutation_nil; exact P.
Qed.

End GeneratorFacts.

Module GeneratorClaims.
Import Generator GeneratorFacts.

(** Claim C3 (counterexample). The best match (score 90, from the
    API-collection source, no code) comes first; the second reference
    (score 60) carries code. Some reference has a code excerpt, yet the
    suggested approach is "ai-generated". *)
Lemma analyze_ignores_code_of_lower_references :
  let ds := [Discovery "github" (Some [Candidate "repo" 60 (Some "export async function handler() {}") ""]);
             Discovery "postman" (Some [Candidate "api" 90 None ""])] in
  Exists (fun r => toolImplementation r <> None) (references (analyzeDiscoveryResults ds)) /\
  suggestedApproach (analyzeDiscoveryResults ds) = "ai-generated".
Proof.
  split; [|reflexivity].
  simpl; apply Exists_cons_tl, Exists_cons_hd; simpl; discriminate.
Qed.

(** Claim C3, as the code has it. With at least one candidate, the
    candidates of all sources are sorted by [relevanceScore], highest
    first (a permutation of them, ties in discovery order); the first 3
    are the references; the best match is the first reference; and the
    approach is "adapt-existing" exactly when that first reference has a
    [toolImplementation]. *)
Theorem analyze_ranks_and_uses_best_match ds :
  allResults ds <> [] ->
  references (analyzeDiscoveryResults ds) = firstn 3 (sort_desc (allResults ds)) /\
  Sorted score_ge (sort_desc (allResults ds)) /\
  Permutation (sort_desc (allResults ds)) (allResults ds) /\
  bestMatch (analyzeDiscoveryResults ds) = hd_error (references (analyzeDiscoveryResults ds)) /\
  suggestedApproach (analyzeDiscoveryResults ds) =
    match references (analyzeDiscoveryResults ds) with
    | best :: _ => match toolImplementation best with
                   | Some _ => "adapt-existing"
                   | None => "ai-generated"
                   end
    | [] => "ai-generated"
    end.
Proof.
  intro Hne.
  split; [|split; [apply sort_desc_sorted|split; [apply sort_desc_perm|]]];
    unfold analyzeDiscoveryResults; destruct (allResults ds) as [|c cs] eqn:A;
    try contradiction;
    destruct (sort_desc (c :: cs)) as [|b bs] eqn:S;
    try (apply sort_desc_nil in S; discriminate); simpl; auto.
Qed.

Lemma analyze_ranks_and_uses_best_match_witness :
  let ds := [Discovery "github" (Some [Candidate "repo" 60 (Some "export async function handler() {}") ""]);
             Discovery "postman" (Some [Candidate "api" 90 None ""])] in
  suggestedApproach (analyzeDiscoveryResults ds) =
    match references (analyzeDiscoveryResults ds) with
    | best :: _ => match toolImplementation best with
                   | Some _ => "adapt-existing"
                   | None => "ai-generated"
                   end
    | [] => "ai-generated"
    end.
Proof.
  intro ds.
  destruct (analyze_ranks_and_uses_best_match ds ltac:(simpl; discriminate))
    as (_ & _ & _ & _ & H).
  exact H.
Defined.

End GeneratorClaims.

Module RegistryClaims.
Import Sandbox Registry.



End RegistryClaims.

Module OrchestratorExtra.
Import Orchestrator JsMapFacts SanitizeFacts OrchestratorFacts OrchestratorClaims.

Lemma delete_set_new k v m : JsMap.get k m = None -> JsMap.delete k (JsMap.set k v m) = m.
Proof.
  induction m as [|[k' v'] r IH]; simpl; intro G.
  - unfold JsMap.delete; simpl; rewrite String.eqb_refl; reflexivity.
  - destruct (String.eqb k k') eqn:E; [discriminate|].
    unfold JsMap.delete in *; simpl; rewrite E; simpl; f_equal; exact (IH G).
Qed.

(** For a name that is already in sanitized form (lower case letters,
    digits and [_] only), the lock is released: whatever the stages do,
    [evolve] returns with the lock map exactly as it found it. *)
Theorem evolve_restores_map_for_sanitized_name E toolName evoId s k a' :
  evolve_entry (activeEvolutions s) toolName evoId = Accept k a' ->
  sanitize toolName = toolName ->
  activeEvolutions (snd (evolve E toolName evoId s)) = activeEvolutions s.
Proof.
  intros Hacc Hs; pose proof (evolve_entry_accept _ _ _ _ _ Hacc) as (-> & G & _ & ->).
  unfold evolve; rewrite Hacc.
  destruct (evolve_body_active E toolName evoId
              (State (JsMap.set (sanitize toolName) evoId (activeEvolutions s)) (creationLog s)))
    as [-> _]; simpl.
  rewrite Hs in *; apply delete_set_new; exact G.
Qed.

Lemma evolve_restores_map_for_sanitized_name_witness :
  activeEvolutions (snd (evolve (Env (fun _ => true) (Ok tt) (Ok (false, "no model")) (Ok true) (Ok "t1"))
                               "weather_now" "e1" (State [("other", "e0")] [])))
  = [("other", "e0")].
Proof.
  apply (evolve_restores_map_for_sanitized_name _ "weather_now" "e1" (State [("other", "e0")] [])
           "weather_now" [("other", "e0"); ("weather_now", "e1")]); reflexivity.
Defined.

(** While a call is in flight (in any interleaving),
    [isEvolutionInProgress] is true for its sanitized name, and that
    name is listed by [getActiveEvolutions]. *)
Theorem inflight_reported w :
  reachable w ->
  forall n k, In (n, k) (inflight w) ->
    isEvolutionInProgress (wactive w) (sanitize n) = true /\
    In (sanitize n) (map fst (getActiveEvolutions (wactive w))).
Proof.
  intros R n k Hin.
  destruct (reachable_inv w R) as (_ & _ & Hall & _).
  destruct (Hall n k Hin) as [-> Hk].
  split.
  - unfold isEvolutionInProgress, JsMap.has.
    destruct (JsMap.get (sanitize n) (wactive w)) eqn:G; [reflexivity|].
    apply get_None_keys in G; contradiction.
  - unfold getActiveEvolutions; rewrite map_map; exact Hk.
Qed.

Lemma inflight_reported_witness :
  isEvolutionInProgress [("foo", "1")] (sanitize "Foo") = true /\
  In (sanitize "Foo") (map fst (getActiveEvolutions [("foo", "1")])).
Proof.
  refine (inflight_reported (World [("foo", "1")] [("Foo", "foo")]) _ "Foo" "foo" _).
  - apply (reach_step (World [] [])); [apply reach_init|].
    apply (step_accept (World [] []) "Foo" "1" "foo" [("foo", "1")]); reflexivity.
  - left; reflexivity.
Defined.

Ltac run_log Hst := repeat (rewrite Hst; cbn); rewrite <- ?app_assoc; reflexivity.

(** When the store accepts every row and all stages succeed, the run
    writes exactly ten audit rows, in stage order, ending with
    completed/success, and releases the lock of [toolName]. *)
Theorem evolve_body_success_log E toolName evoId s g rid :
  (forall r, store_ok E r = true) ->
  discovery E = Ok tt -> generation E = Ok (true, g) ->
  testing E = Ok true -> registration E = Ok rid ->
  evolve_body E toolName evoId s =
  (Ok (EvolveResult true evoId None None),
   State (JsMap.delete toolName (activeEvolutions s))
     (creationLog s ++ rows_tested toolName true ++
      [LogRow toolName "registration" "in_progress";
       LogRow toolName "registration" "completed";
       LogRow toolName "completed" "success"])%list).
Proof.
  intros Hst Hd Hg Ht Hr; destruct s as [a l].
  unfold evolve_body, runDiscovery, runGeneration, runTesting, runRegistration,
    try_catch, bind, lift, ret, modify_active, logStage.
  rewrite Hd, Hg, Ht, Hr; cbn. run_log Hst.
Qed.

Lemma evolve_body_success_log_witness :
  evolve_body (Env (fun _ => true) (Ok tt) (Ok (true, "")) (Ok true) (Ok "t9")) "wx" "e1" (State [("wx", "e1")] [])
  = (Ok (EvolveResult true "e1" None None),
     State (JsMap.delete "wx" [("wx", "e1")])
       ([] ++ rows_tested "wx" true ++
        [LogRow "wx" "registration" "in_progress";
         LogRow "wx" "registration" "completed";
         LogRow "wx" "completed" "success"])%list).
Proof.
  apply (evolve_body_success_log (Env (fun _ => true) (Ok tt) (Ok (true, "")) (Ok true) (Ok "t9"))
           "wx" "e1" (State [("wx", "e1")] []) "" "t9"); reflexivity.
Defined.

(** A generator that reports failure ends the run at stage
    [generation] with the generator's error, and the row
    generation/failed is written twice (once by [runGeneration], once
    by [evolve]). *)
Theorem evolve_body_generation_failure_log E toolName evoId s msg :
  (forall r, store_ok E r = true) ->
  discovery E = Ok tt -> generation E = Ok (false, msg) ->
  evolve_body E toolName evoId s =
  (Ok (EvolveResult false evoId (Some "generation") (Some msg)),
   State (JsMap.delete toolName (activeEvolutions s))
     (creationLog s ++ rows_generated toolName false ++
      [LogRow toolName "generation" "failed"])%list).
Proof.
  intros Hst Hd Hg; destruct s as [a l].
  unfold evolve_body, runDiscovery, runGeneration, try_catch, bind, lift, ret,
    modify_active, logStage.
  rewrite Hd, Hg; cbn. run_log Hst.
Qed.

Lemma evolve_body_generation_failure_log_witness :
  evolve_body (Env (fun _ => true) (Ok tt) (Ok (false, "no model")) (Ok true) (Ok "t9")) "wx" "e1" (State [] [])
  = (Ok (EvolveResult false "e1" (Some "generation") (Some "no model")),
     State (JsMap.delete "wx" [])
       ([] ++ rows_generated "wx" false ++ [LogRow "wx" "generation" "failed"])%list).
Proof.
  apply (evolve_body_generation_failure_log (Env (fun _ => true) (Ok tt) (Ok (false, "no model")) (Ok true) (Ok "t9"))
           "wx" "e1" (State [] []) "no model"); reflexivity.
Defined.

(** A tool that fails the sandbox ends the run at stage [testing] with
    the fixed message, nothing is registered, and testing/failed is
    written twice. *)
Theorem evolve_body_testing_failure_log E toolName evoId s g :
  (forall r, store_ok E r = true) ->
  discovery E = Ok tt -> generation E = Ok (true, g) -> testing E = Ok false ->
  evolve_body E toolName evoId s =
  (Ok (EvolveResult false evoId (Some "testing") (Some "Tool failed sandbox testing")),
   State (JsMap.delete toolName (activeEvolutions s))
     (creationLog s ++ rows_tested toolName false ++
      [LogRow toolName "testing" "failed"])%list).
Proof.
  intros Hst Hd Hg Ht; destruct s as [a l].
  unfold evolve_body, runDiscovery, runGeneration, runTesting, try_catch, bind,
    lift, ret, modify_active, logStage.
  rewrite Hd, Hg, Ht; cbn. run_log Hst.
Qed.

Lemma evolve_body_testing_failure_log_witness :
  evolve_body (Env (fun _ => true) (Ok tt) (Ok (true, "")) (Ok false) (Ok "t9")) "wx" "e1" (State [] [])
  = (Ok (EvolveResult false "e1" (Some "testing") (Some "Tool failed sandbox testing")),
     State (JsMap.delete "wx" [])
       ([] ++ rows_tested "wx" false ++ [LogRow "wx" "testing" "failed"])%list).
Proof.
  apply (evolve_body_testing_failure_log (Env (fun _ => true) (Ok tt) (Ok (true, "")) (Ok false) (Ok "t9"))
           "wx" "e1" (State [] []) ""); reflexivity.
Defined.

(** A discovery that throws is caught: the result has stage
    [unknown] and the thrown message, and the rows are
    started, discovery/in_progress, error/failed. *)
Theorem evolve_body_discovery_throws_log E toolName evoId s m :
  (forall r, store_ok E r = true) -> discovery E = Exn m ->
  evolve_body E toolName evoId s =
  (Ok (EvolveResult false evoId (Some "unknown") (Some m)),
   State (JsMap.delete toolName (activeEvolutions s))
     (creationLog s ++ rows_prefix toolName ++ [LogRow toolName "error" "failed"])%list).
Proof.
  intros Hst Hd; destruct s as [a l].
  unfold evolve_body, runDiscovery, try_catch, bind, lift, ret, modify_active, logStage.
  rewrite Hd; cbn. run_log Hst.
Qed.

Lemma evolve_body_discovery_throws_log_witness :
  evolve_body (Env (fun _ => true) (Exn "rate limited") (Ok (true, "")) (Ok true) (Ok "t9")) "wx" "e1" (State [] [])
  = (Ok (EvolveResult false "e1" (Some "unknown") (Some "rate limited")),
     State (JsMap.delete "wx" [])
       ([] ++ rows_prefix "wx" ++ [LogRow "wx" "error" "failed"])%list).
Proof.
  apply (evolve_body_discovery_throws_log (Env (fun _ => true) (Exn "rate limited") (Ok (true, "")) (Ok true) (Ok "t9"))
           "wx" "e1" (State [] []) "rate limited"); reflexivity.
Defined.

End OrchestratorExtra.

Module SandboxExtra.
Import Sandbox SandboxFacts.

Lemma count_sev_zero sv l :
  count_sev sv l = 0%nat <-> (forall p, In p l -> severity_eqb (p_severity p) sv = false).
Proof.
  unfold count_sev; induction l as [|p l IH]; simpl; [tauto|].
  destruct (severity_eqb (p_severity p) sv) eqn:E; simpl.
  - split; [discriminate|]. intro H; rewrite (H p (or_introl eq_refl)) in E; discriminate.
  - rewrite IH; split; [intros H q [<-|Hq]; auto | intros H q Hq; auto].
Qed.

(** A non-empty code passes the scan exactly when every dangerous
    pattern it matches is of medium or low severity: medium findings
    (property descriptors, [WeakRef], [FinalizationRegistry]) are
    reported but never block. *)
Theorem scan_passes_iff_only_medium_or_low V code :
  scan_passed (performSecurityScan V (JStr code)) = true <->
  code <> "" /\
  (forall p, In p dangerousPatterns -> regex_test V (p_source p) code = true ->
             p_severity p = Medium \/ p_severity p = Low).
Proof.
  unfold performSecurityScan.
  destruct (String.eqb code "") eqn:E.
  - apply String.eqb_eq in E; simpl; split; [discriminate | tauto].
  - apply String.eqb_neq in E; cbv beta iota zeta delta [scan_passed].
    rewrite andb_true_iff, !Nat.eqb_eq, !count_sev_zero.
    split.
    + intros [Hc Hh]; split; [exact E|]; intros p Hp Ht.
      assert (Hin : In p (filter (fun p => regex_test V (p_source p) code) dangerousPatterns))
        by (apply filter_In; auto).
      specialize (Hc p Hin); specialize (Hh p Hin).
      destruct (p_severity p); simpl in Hc, Hh; auto; discriminate.
    + intros [_ H]; split; intros p Hp; apply filter_In in Hp as [Hp Ht];
        destruct (H p Hp Ht) as [-> | ->]; reflexivity.
Qed.

Lemma run_tests_results V sb t tcs :
  fst (run_tests V sb t tcs) = map (fun tc => fst (testExecution V sb t tc)) tcs.
Proof.
  induction tcs as [|tc r IH]; simpl; [reflexivity|].
  destruct (testExecution V sb t tc) as [e ev1]; destruct (run_tests V sb t r) as [es ev2].
  simpl in *; rewrite IH; reflexivity.
Qed.

(** A passing [test] result ran every effective test case, and all of
    them passed: the given cases, or, when none are given, the two
    default cases built from [inputSchema]. The scan passed, the code
    compiled, and [executionTests] holds one result per case, in order;
    so a pass is never vacuous. *)
Theorem test_pass_not_vacuous V sb t tcs :
  r_passed (fst (test V sb t tcs)) = true ->
  exists scan cases,
    r_securityScan (fst (test V sb t tcs)) = Some scan /\ scan_passed scan = true /\
    r_compilationTest (fst (test V sb t tcs)) = Some true /\
    (tcs = [] -> exists s, inputSchema t = Some s /\ cases = generateDefaultTestCases s) /\
    (tcs <> [] -> cases = tcs) /\
    cases <> [] /\
    r_executionTests (fst (test V sb t tcs)) =
      Some (map (fun tc => fst (testExecution V sb t tc)) cases) /\
    Forall (fun tc => e_passed (fst (testExecution V sb t tc)) = true) cases.
Proof.
  unfold test.
  destruct (truthy (handlerCode t)); [|discriminate].
  destruct (scan_passed (performSecurityScan V (handlerCode t))) eqn:Hs; [|discriminate].
  destruct (script_compiles V (wrapped (handlerCode t))); [|discriminate].
  assert (Hgo : forall cases, cases <> [] ->
    r_passed (fst (let (es, evs) := run_tests V sb t cases in
       (TestResult (forallb e_passed es) None (Some (performSecurityScan V (handlerCode t)))
          (Some true) (Some es), EvCompile (wrapped (handlerCode t)) :: evs))) = true ->
    r_securityScan (fst (let (es, evs) := run_tests V sb t cases in
       (TestResult (forallb e_passed es) None (Some (performSecurityScan V (handlerCode t)))
          (Some true) (Some es), EvCompile (wrapped (handlerCode t)) :: evs))) =
      Some (performSecurityScan V (handlerCode t)) /\
    r_compilationTest (fst (let (es, evs) := run_tests V sb t cases in
       (TestResult (forallb e_passed es) None (Some (performSecurityScan V (handlerCode t)))
          (Some true) (Some es), EvCompile (wrapped (handlerCode t)) :: evs))) = Some true /\
    r_executionTests (fst (let (es, evs) := run_tests V sb t cases in
       (TestResult (forallb e_passed es) None (Some (performSecurityScan V (handlerCode t)))
          (Some true) (Some es), EvCompile (wrapped (handlerCode t)) :: evs))) =
      Some (map (fun tc => fst (testExecution V sb t tc)) cases) /\
    Forall (fun tc => e_passed (fst (testExecution V sb t tc)) = true) cases).
  { intros cases _; pose proof (run_tests_results V sb t cases) as Hr.
    destruct (run_tests V sb t cases) as [es evs]; simpl in Hr; subst es; cbn - [testExecution].
    intro Hp; split; [reflexivity|]; split; [reflexivity|]; split; [reflexivity|].
    apply Forall_forall; intros tc Htc.
    apply (proj1 (forallb_forall _ _) Hp (fst (testExecution V sb t tc))).
    apply (in_map (fun tc => fst (testExecution V sb t tc))); exact Htc. }
  destruct tcs as [|tc r].
  - destruct (inputSchema t) as [sch|] eqn:Hi; [|discriminate].
    intro Hp; assert (Hne : generateDefaultTestCases sch <> []) by discriminate.
    destruct (Hgo _ Hne Hp) as (H1 & H2 & H3 & H4).
    exists (performSecurityScan V (handlerCode t)), (generateDefaultTestCases sch).
    split; [exact H1|]; split; [exact Hs|]; split; [exact H2|].
    split; [intros _; exists sch; split; reflexivity|].
    split; [intros []; reflexivity|]; split; [exact Hne|]; split; [exact H3 | exact H4].
  - intro Hp; assert (Hne : tc :: r <> []) by discriminate.
    destruct (Hgo _ Hne Hp) as (H1 & H2 & H3 & H4).
    exists (performSecurityScan V (handlerCode t)), (tc :: r).
    split; [exact H1|]; split; [exact Hs|]; split; [exact H2|].
    split; [discriminate|].
    split; [reflexivity|]; split; [exact Hne|]; split; [exact H3 | exact H4].
Qed.

Definition text_env : vm_env :=
  VmEnv (fun _ _ => false) (fun _ => true) (fun _ => Handler (fun _ => Settles 3 (Ok (JStr "ok")))).

Lemma test_pass_not_vacuous_witness :
  let sb := new_sandbox (Options None None) in
  let t := Tool "echo" (JStr "async (a) => 'ok'")
                (Some (Schema (Some "object") None None None None None None)) in
  r_passed (fst (test text_env sb t [])) = true /\
  exists scan cases,
    r_securityScan (fst (test text_env sb t [])) = Some scan /\ scan_passed scan = true /\
    r_compilationTest (fst (test text_env sb t [])) = Some true /\
    (@nil test_case = [] -> exists s, inputSchema t = Some s /\ cases = generateDefaultTestCases s) /\
    (@nil test_case <> [] -> cases = []) /\
    cases <> [] /\
    r_executionTests (fst (test text_env sb t [])) =
      Some (map (fun tc => fst (testExecution text_env sb t tc)) cases) /\
    Forall (fun tc => e_passed (fst (testExecution text_env sb t tc)) = true) cases.
Proof.
  intros sb t.
  assert (H : r_passed (fst (test text_env sb t [])) = true) by (vm_compute; reflexivity).
  split; [exact H | exact (test_pass_not_vacuous text_env sb t [] H)].
Defined.

(** [execute] only ever shortens the sandbox timeout: the delay it
    passes to the timer its handler call is raced against is at most
    [defaultTimeout] (exactly that when no timeout option is given), and
    loading the handler is bounded by a fixed 1000 ms. *)
Theorem execute_timeouts V sb hc args o :
  Forall (fun ev => match ev with
                    | EvCompile _ => True
                    | EvRunScript _ tm => tm = 1000%Z
                    | EvCall _ tm => (tm <= defaultTimeout sb)%Z /\
                                     (opt_timeout o = None -> tm = defaultTimeout sb)
                    end) (snd (execute V sb hc args o)).
Proof.
  unfold execute.
  destruct (scan_passed (performSecurityScan V hc)); simpl; [|constructor].
  destruct (script_compiles V (wrapped hc)); simpl; [|repeat constructor].
  destruct (run_in_context V (wrapped hc)); simpl; repeat constructor.
  - apply Z.le_min_r.
  - intros ->; simpl; apply Z.min_id.
Qed.

Lemma prop_lookup_none k ps : ~ In k (map fst ps) -> prop_lookup k ps = None.
Proof.
  induction ps as [|[k' p] r IH]; simpl; [reflexivity|]; intro Hn.
  destruct (String.eqb k k') eqn:E.
  - apply String.eqb_eq in E; subst; tauto.
  - apply IH; tauto.
Qed.

Lemma fold_entries (g : schema -> jsval) k ps acc :
  NoDup (map fst ps) ->
  obj_get k (fold_left (fun acc kv => obj_set (fst kv) (g (snd kv)) acc) ps acc) =
  if String.eqb k "__proto__" then obj_get k acc
  else match prop_lookup k ps with Some p => Some (g p) | None => obj_get k acc end.
Proof.
  revert acc; induction ps as [|[k' p] r IH]; intros acc Hnd; simpl.
  - destruct (String.eqb k "__proto__"); reflexivity.
  - inversion Hnd as [|? ? Hn Hnd']; subst.
    rewrite (IH _ Hnd').
    destruct (String.eqb k "__proto__") eqn:Ep.
    + apply String.eqb_eq in Ep; subst k; apply obj_get_proto_set.
    + apply String.eqb_neq in Ep.
      destruct (String.eqb k k') eqn:E.
      * apply String.eqb_eq in E; subst k'.
        rewrite (prop_lookup_none k r Hn); apply obj_get_set_same; exact Ep.
      * apply String.eqb_neq in E.
        destruct (prop_lookup k r); [reflexivity|]; apply obj_get_set_other; exact E.
Qed.

(** The two default test cases: the minimal input holds exactly the
    required names, each with the sample value of its property schema
    (['test'] when the name has no schema); the full input holds exactly
    the declared properties with their sample values. A name
    ["__proto__"] is the exception in both: its assignment runs the
    inherited accessor and leaves no own key. *)
Theorem default_case_inputs s :
  NoDup (map fst (schema_properties s)) ->
  exists mi fi,
    generateDefaultTestCases s =
      [TestCase "minimal_required_params" (JObj mi) success_expected;
       TestCase "all_params" (JObj fi) success_expected] /\
    (forall k, obj_get k mi =
       if String.eqb k "__proto__" then None
       else if in_dec String.string_dec k (schema_required s)
       then Some match prop_lookup k (schema_properties s) with
                 | Some p => sample_value p
                 | None => JStr "test" end
       else None) /\
    (forall k, obj_get k fi =
       if String.eqb k "__proto__" then None
       else option_map sample_value (prop_lookup k (schema_properties s))).
Proof.
  intro Hnd; unfold generateDefaultTestCases; eexists _, _; split; [reflexivity|]; split.
  - intro k; destruct (String.eqb k "__proto__") eqn:Ep.
    + apply String.eqb_eq in Ep; subst k.
      rewrite (fold_set_proto (fun prop => generateSampleValue (prop_lookup prop (schema_properties s)))
                 _ []); reflexivity.
    + apply String.eqb_neq in Ep.
      destruct (in_dec String.string_dec k (schema_required s)) as [Hi|Hi].
      * rewrite (fold_set_present (fun prop => generateSampleValue (prop_lookup prop (schema_properties s)))
                   k _ [] Hi Ep); reflexivity.
      * rewrite (fold_set_absent (fun prop => generateSampleValue (prop_lookup prop (schema_properties s)))
                   k _ [] Hi); reflexivity.
  - intro k; rewrite (fold_entries (fun p => generateSampleValue (Some p)) k _ [] Hnd).
    destruct (String.eqb k "__proto__"); [reflexivity|].
    destruct (prop_lookup k (schema_properties s)); reflexivity.
Qed.

Definition weather_schema : schema :=
  Schema (Some "object") None None None None
    (Some [("city", Schema (Some "string") None None None None None None);
           ("days", Schema (Some "integer") None None (Some (JNum 1)) None None None)])
    (Some ["city"; "units"]).

Lemma default_case_inputs_witness :
  NoDup (map fst (schema_properties weather_schema)) /\
  exists mi fi,
    generateDefaultTestCases weather_schema =
      [TestCase "minimal_required_params" (JObj mi) success_expected;
       TestCase "all_params" (JObj fi) success_expected] /\
    (forall k, obj_get k mi =
       if String.eqb k "__proto__" then None
       else if in_dec String.string_dec k (schema_required weather_schema)
       then Some match prop_lookup k (schema_properties weather_schema) with
                 | Some p => sample_value p
                 | None => JStr "test" end
       else None) /\
    (forall k, obj_get k fi =
       if String.eqb k "__proto__" then None
       else option_map sample_value (prop_lookup k (schema_properties weather_schema))).
Proof.
  assert (H : NoDup (map fst (schema_properties weather_schema))).
  { simpl; constructor; [simpl; intros [H|[]]; discriminate | constructor; [simpl; tauto | constructor]]. }
  split; [exact H | exact (default_case_inputs weather_schema H)].
Defined.

End SandboxExtra.

Module GeneratorExtra.
Import Generator GeneratorFacts.

Lemma allResults_flat ds :
  allResults ds =
  flat_map (fun d => map (with_source (d_source d))
                       (match d_results d with Some l => l | None => [] end)) ds.
Proof.
  induction ds as [|d r IH]; simpl; [reflexivity|].
  destruct (d_results d) as [[|c cs]|]; simpl; rewrite IH; reflexivity.
Qed.

(** With no candidate in any discovery (every [results] missing or
    empty), the analysis still allows generation: no references, no best
    match, approach "ai-generated", and the from-scratch reason. *)
Theorem analyze_without_candidates ds :
  (forall d, In d ds -> d_results d = None \/ d_results d = Some []) ->
  analyzeDiscoveryResults ds =
  Analysis true (Some "No existing implementations found, will generate from scratch")
           [] "ai-generated" None.
Proof.
  intro H; unfold analyzeDiscoveryResults.
  replace (allResults ds) with (@nil candidate); [reflexivity|].
  rewrite allResults_flat; symmetry.
  induction ds as [|d r IH]; simpl; [reflexivity|].
  destruct (H d (or_introl eq_refl)) as [-> | ->]; simpl;
    apply IH; intros d' Hd'; apply H; right; exact Hd'.
Qed.

Lemma analyze_without_candidates_witness :
  analyzeDiscoveryResults [Discovery "github" None; Discovery "postman" (Some [])] =
  Analysis true (Some "No existing implementations found, will generate from scratch")
           [] "ai-generated" None.
Proof.
  apply analyze_without_candidates.
  intros d [<-|[<-|[]]]; [left | right]; reflexivity.
Defined.

(** The analysis never refuses ([canGenerate] is always true, so
    [generate] never stops at the analysis step); it keeps
    min(3, number of candidates) references, each of them a candidate
    of some discovery tagged with that discovery's [source]. *)
Theorem analyze_references_tagged ds :
  canGenerate (analyzeDiscoveryResults ds) = true /\
  length (references (analyzeDiscoveryResults ds)) = Nat.min 3 (length (allResults ds)) /\
  (forall r, In r (references (analyzeDiscoveryResults ds)) ->
     exists d c l, In d ds /\ d_results d = Some l /\ In c l /\ r = with_source (d_source d) c).
Proof.
  assert (Href : references (analyzeDiscoveryResults ds) = firstn 3 (sort_desc (allResults ds))).
  { unfold analyzeDiscoveryResults; destruct (allResults ds) as [|c cs]; [reflexivity|].
    destruct (firstn 3 (sort_desc (c :: cs))); reflexivity. }
  split; [|split].
  - unfold analyzeDiscoveryResults; destruct (allResults ds); [reflexivity|].
    destruct (firstn 3 (sort_desc _)); reflexivity.
  - rewrite Href, length_firstn, (Permutation_length (sort_desc_perm _)); reflexivity.
  - intros r Hr; rewrite Href in Hr.
    assert (Hs : In r (sort_desc (allResults ds))).
    { rewrite <- (firstn_skipn 3 (sort_desc (allResults ds))); apply in_or_app; left; exact Hr. }
    apply (Permutation_in _ (sort_desc_perm _)) in Hs; clear Hr; rename Hs into Hr.
    rewrite allResults_flat in Hr.
    apply in_flat_map in Hr as (d & Hd & Hc); apply in_map_iff in Hc as (c & <- & Hc).
    destruct (d_results d) as [l|] eqn:E; [|destruct Hc].
    exists d, c, l; auto.
Qed.

End GeneratorExtra.

Module GeneratorCodeExtra.
Import Sandbox GeneratorCode.

(** [generateToolCode] asks the provider at most [maxRetries] = 3
    times and stops at the first attempt whose answer parses into a safe
    tool: on success, attempts [1..k] were made, attempt [k] produced
    the tool and every earlier one failed. *)
Theorem generateToolCode_first_success G prompt t :
  fst (generateToolCode G prompt) = GenOk t ->
  exists k, (1 <= k <= 3)%nat /\ snd (generateToolCode G prompt) = seq 1 k /\
    attempt G prompt k = GenOk t /\
    (forall j, (1 <= j < k)%nat -> exists e, attempt G prompt j = GenErr e).
Proof.
  unfold generateToolCode, maxRetries; simpl.
  destruct (attempt G prompt 1) as [t1|e1] eqn:A1; simpl.
  { intro H; injection H as <-; exists 1%nat; repeat split; auto; intros j Hj; lia. }
  destruct (attempt G prompt 2) as [t2|e2] eqn:A2; simpl.
  { intro H; injection H as <-; exists 2%nat; repeat split; auto.
    intros j Hj; assert (j = 1%nat) as -> by lia; eauto. }
  destruct (attempt G prompt 3) as [t3|e3] eqn:A3; simpl; [|discriminate].
  intro H; injection H as <-; exists 3%nat; repeat split; auto.
  intros j Hj; assert (j = 1%nat \/ j = 2%nat) as [-> | ->] by lia; eauto.
Qed.

(** When all three attempts fail, the error names only the last
    attempt's error ([chat] exception or parse failure). *)
Theorem generateToolCode_failure G prompt m :
  fst (generateToolCode G prompt) = GenErr m ->
  snd (generateToolCode G prompt) = [1; 2; 3]%nat /\
  (exists e1 e2, attempt G prompt 1 = GenErr e1 /\ attempt G prompt 2 = GenErr e2) /\
  exists e3, attempt G prompt 3 = GenErr e3 /\ m = "Failed after 3 attempts: " ++ e3.
Proof.
  unfold generateToolCode, maxRetries; simpl.
  destruct (attempt G prompt 1) as [t1|e1] eqn:A1; simpl; [discriminate|].
  destruct (attempt G prompt 2) as [t2|e2] eqn:A2; simpl; [discriminate|].
  destruct (attempt G prompt 3) as [t3|e3] eqn:A3; simpl; [discriminate|].
  intro H; injection H as <-; split; [reflexivity|]; split; eauto.
Qed.

(** A generator environment: the provider answers with a tool object
    on its second attempt (the first call throws); the regex engine
    flags [eval(] only. *)
Definition sample_tool : jsval :=
  JObj [("name", JStr "weather"); ("description", JStr "Current weather");
        ("inputSchema", JObj [("type", JStr "object")]);
        ("handlerCode", JStr "async (args) => ({ content: [] })")].

Definition sample_env : gen_env :=
  GenEnv (fun _ n => if Nat.eqb n 1 then Exn "rate limited" else Ok "{...}")
         (fun s => s)
         (fun _ => Ok sample_tool)
         (fun p v => String.eqb p "eval\s*\(" && match v with JStr c => String.eqb c "eval(x)" | _ => false end).

Lemma generateToolCode_first_success_witness :
  exists t, fst (generateToolCode sample_env "p") = GenOk t /\
  exists k, (1 <= k <= 3)%nat /\ snd (generateToolCode sample_env "p") = seq 1 k /\
    attempt sample_env "p" k = GenOk t /\
    (forall j, (1 <= j < k)%nat -> exists e, attempt sample_env "p" j = GenErr e).
Proof.
  eexists; split; [vm_compute; reflexivity|].
  apply generateToolCode_first_success; vm_compute; reflexivity.
Defined.

Lemma generateToolCode_failure_witness :
  let G := GenEnv (fun _ _ => Exn "rate limited") (fun s => s) (fun _ => Ok JNull) (fun _ _ => false) in
  exists m, fst (generateToolCode G "p") = GenErr m /\
  snd (generateToolCode G "p") = [1; 2; 3]%nat /\
  (exists e1 e2, attempt G "p" 1 = GenErr e1 /\ attempt G "p" 2 = GenErr e2) /\
  exists e3, attempt G "p" 3 = GenErr e3 /\ m = "Failed after 3 attempts: " ++ e3.
Proof.
  intro G; eexists; split; [vm_compute; reflexivity|].
  apply generateToolCode_failure; vm_compute; reflexivity.
Defined.

(** A parsed tool always has a truthy name, description, input schema
    and handler code, a handler that no security pattern flags, and a
    truthy category (defaulting to "generated"). *)
Theorem parse_success_fields G content t :
  parseGeneratedTool G content = GenOk t ->
  truthy (g_name t) = true /\ truthy (g_description t) = true /\
  truthy (g_inputSchema t) = true /\ truthy (g_handlerCode t) = true /\
  validateHandlerSecurity G (g_handlerCode t) = None /\ truthy (g_category t) = true.
Proof.
  unfold parseGeneratedTool.
  destruct (json_parse G (extract_json G content)) as [tool|m]; [|discriminate].
  destruct (get_prop tool "name") as [name|m]; [|discriminate].
  destruct (truthy name) eqn:Hn, (truthy (field tool "description")) eqn:Hd,
           (truthy (field tool "inputSchema")) eqn:Hi, (truthy (field tool "handlerCode")) eqn:Hh;
    simpl; try discriminate.
  destruct (validateHandlerSecurity G (field tool "handlerCode")) eqn:Hv; [discriminate|].
  intro H; injection H as <-; simpl; repeat split; auto.
  destruct (truthy (field tool "category")) eqn:Hc; [exact Hc | reflexivity].
Qed.

Lemma parse_success_fields_witness :
  exists t, parseGeneratedTool sample_env "{...}" = GenOk t /\
  truthy (g_name t) = true /\ truthy (g_description t) = true /\
  truthy (g_inputSchema t) = true /\ truthy (g_handlerCode t) = true /\
  validateHandlerSecurity sample_env (g_handlerCode t) = None /\ truthy (g_category t) = true.
Proof.
  eexists; split; [vm_compute; reflexivity|].
  apply (parse_success_fields sample_env "{...}"); vm_compute; reflexivity.
Defined.

(** A flagged handler is refused with the first matching pattern of
    [validateHandlerSecurity]'s list, in list order. *)
Theorem parse_reports_first_pattern G content tool :
  json_parse G (extract_json G content) = Ok tool ->
  truthy (field tool "name") && truthy (field tool "description") &&
  truthy (field tool "inputSchema") && truthy (field tool "handlerCode") = true ->
  forall pre p post, handlerPatterns = (pre ++ p :: post)%list ->
  Forall (fun q => gen_test G q (field tool "handlerCode") = false) pre ->
  gen_test G p (field tool "handlerCode") = true ->
  parseGeneratedTool G content =
  GenErr ("Security validation failed: Dangerous pattern detected: /" ++ p ++ "/").
Proof.
  intros Hj Ht pre p post Hs Hpre Hp.
  unfold parseGeneratedTool; rewrite Hj.
  assert (Hname : get_prop tool "name" = Ok (field tool "name")).
  { destruct tool; try reflexivity; simpl in Ht; discriminate. }
  rewrite Hname.
  apply andb_true_iff in Ht as [Ht Hh]; apply andb_true_iff in Ht as [Ht Hi];
    apply andb_true_iff in Ht as [Hn Hd].
  rewrite Hn, Hd, Hi, Hh; simpl.
  unfold validateHandlerSecurity; rewrite Hs.
  clear Hs; induction Hpre as [|q pre Hq _ IH]; simpl.
  - rewrite Hp; reflexivity.
  - rewrite Hq; exact IH.
Qed.

Lemma parse_reports_first_pattern_witness :
  let tool := JObj [("name", JStr "calc"); ("description", JStr "Calculator");
                    ("inputSchema", JObj []); ("handlerCode", JStr "eval(x)")] in
  let G := GenEnv (fun _ _ => Ok "") (fun s => s) (fun _ => Ok tool)
             (fun p v => String.eqb p "eval\s*\(" && match v with JStr c => String.eqb c "eval(x)" | _ => false end) in
  parseGeneratedTool G "" =
  GenErr ("Security validation failed: Dangerous pattern detected: /" ++ "eval\s*\(" ++ "/").
Proof.
  intros tool G.
  apply (parse_reports_first_pattern G "" tool eq_refl eq_refl
           ["require\s*\("; "import\s+"; "process\."; "child_process"; "exec\s*\("; "spawn\s*\("]
           "eval\s*\(" ["Function\s*\("; "fs\."; "__dirname"; "__filename"; "\.env";
                        "globalThis"; "Reflect\."; "Proxy"] eq_refl).
  - repeat constructor.
  - reflexivity.
Defined.

End GeneratorCodeExtra.

Module RegistryExtra.
Import Sandbox Registry.

Lemma lookup_set_same k v m : lookup k (map_set k v m) = Some v.
Proof.
  induction m as [|[k' v'] r IH]; simpl.
  - rewrite String.eqb_refl; reflexivity.
  - destruct (String.eqb k k') eqn:E; simpl; [rewrite String.eqb_refl; reflexivity|].
    rewrite E; exact IH.
Qed.

Lemma lookup_set_other k k' v m : k <> k' -> lookup k (map_set k' v m) = lookup k m.
Proof.
  intro Hne; induction m as [|[k0 v0] r IH]; simpl.
  - rewrite (proj2 (String.eqb_neq _ _) Hne); reflexivity.
  - destruct (String.eqb k' k0) eqn:E; simpl.
    + apply String.eqb_eq in E; subst k0; rewrite (proj2 (String.eqb_neq _ _) Hne); reflexivity.
    + destruct (String.eqb k k0); [reflexivity | exact IH].
Qed.

Lemma lookup_delete k k' m :
  lookup k (map_delete k' m) = if String.eqb k k' then None else lookup k m.
Proof.
  unfold map_delete; induction m as [|[k0 v0] r IH]; simpl.
  - destruct (String.eqb k k'); reflexivity.
  - destruct (String.eqb k0 k') eqn:E; simpl.
    + apply String.eqb_eq in E; subst k0; rewrite IH.
      destruct (String.eqb k k'); reflexivity.
    + rewrite IH; destruct (String.eqb k k0) eqn:E'; [|reflexivity].
      apply String.eqb_eq in E'; subst k0; rewrite E; reflexivity.
Qed.

Lemma length_set_new k v m : lookup k m = None -> length (map_set k v m) = S (length m).
Proof.
  induction m as [|[k' v'] r IH]; simpl; [reflexivity|].
  destruct (String.eqb k k'); [discriminate|]; simpl; intro H; rewrite (IH H); reflexivity.
Qed.

Lemma length_set_old k v m : lookup k m <> None -> length (map_set k v m) = length m.
Proof.
  induction m as [|[k' v'] r IH]; simpl; [tauto|].
  destruct (String.eqb k k'); simpl; [reflexivity|]; intro H; rewrite (IH H); reflexivity.
Qed.

(** After a successful [register], [get] on the name finds the built-in
    definition with the defaults filled in ('' description, the empty
    object schema, category 'general', [requiresAuth] unless it was
    [false], [isBuiltin]), whatever the dynamic registry holds; other
    names are unaffected, and the map grows by one entry exactly when
    the name was new (re-registering replaces in place). *)
Theorem register_then_get m tool m' D :
  register m tool = Ok m' ->
  exists name handler,
    ts_name tool = Some name /\ ts_handler tool = Some handler /\
    get m' D name =
      FoundBuiltin (ToolDef name (str_or (ts_description tool) "")
                      (match ts_inputSchema tool with Some s => s | None => default_inputSchema end)
                      handler (str_or (ts_category tool) "general")
                      (match ts_requiresAuth tool with Some (JBool false) => false | _ => true end)
                      true) /\
    (forall k, k <> name -> get m' D k = get m D k) /\
    length m' = (if lookup name m then length m else S (length m)).
Proof.
  unfold register.
  destruct (ts_name tool) as [name|], (ts_handler tool) as [h|]; try discriminate.
  destruct (String.eqb name "") eqn:E; [discriminate|].
  intro H; injection H as <-.
  exists name, h; repeat split.
  - unfold get; rewrite lookup_set_same; reflexivity.
  - intros k Hk; unfold get; rewrite lookup_set_other by exact Hk; reflexivity.
  - destruct (lookup name m) eqn:L.
    + apply length_set_old; rewrite L; discriminate.
    + apply length_set_new; exact L.
Qed.

Definition no_dynamic : dynamic_registry := DynamicRegistry (fun _ => false) (fun _ => JUndef).

Lemma register_then_get_witness :
  exists m', register [] (ToolSpec (Some "echo") None None (Some (fun a => Ok a)) None None) = Ok m' /\
  exists name handler,
    ts_name (ToolSpec (Some "echo") None None (Some (fun a => Ok a)) None None) = Some name /\
    ts_handler (ToolSpec (Some "echo") None None (Some (fun a => Ok a)) None None) = Some handler /\
    get m' no_dynamic name =
      FoundBuiltin (ToolDef name "" default_inputSchema handler "general" true true) /\
    (forall k, k <> name -> get m' no_dynamic k = get [] no_dynamic k) /\
    length m' = 1%nat.
Proof.
  eexists; split; [reflexivity|].
  exact (register_then_get [] (ToolSpec (Some "echo") None None (Some (fun a => Ok a)) None None)
           _ no_dynamic eq_refl).
Defined.

(** [unregister] reports whether the name was a built-in tool and
    removes it; afterwards [get] falls back to the dynamic registry
    for that name, and [has] then only reflects the dynamic registry. *)
Theorem unregister_falls_back m D name :
  fst (unregister m name) = match lookup name m with Some _ => true | None => false end /\
  get (snd (unregister m name)) D name =
    (if dyn_has D name then FoundGenerated (dyn_get D name) else NotFound) /\
  has (snd (unregister m name)) D name = dyn_has D name /\
  (forall k, k <> name -> get (snd (unregister m name)) D k = get m D k).
Proof.
  assert (Hl : forall k, lookup k (snd (unregister m name)) =
                         if String.eqb k name then None else lookup k m).
  { intro k; unfold unregister; destruct (lookup name m) eqn:L; simpl; [apply lookup_delete|].
    destruct (String.eqb k name) eqn:E; [|reflexivity].
    apply String.eqb_eq in E; subst; exact L. }
  split; [unfold unregister; destruct (lookup name m); reflexivity|].
  split; [unfold get; rewrite Hl, String.eqb_refl; reflexivity|].
  split; [unfold has; rewrite Hl, String.eqb_refl; reflexivity|].
  intros k Hk; unfold get; rewrite Hl, (proj2 (String.eqb_neq _ _) Hk); reflexivity.
Qed.

(** After a successful auto-evolution, [execute] answers the new
    tool's result spread into a fresh object: every own key of the
    result other than [_evolution] keeps its value (an array's indices
    and a string's characters become keys, any other primitive gives
    none), and [_evolution] holds [newTool: true] with the evolution id
    and the [duration] of the orchestrator's result. *)
Theorem execute_evolved_result R name args ctx r res :
  existsb (String.eqb name) (builtin_names R) = false ->
  dynamic_has R name = false ->
  autoEvolve ctx <> Some false ->
  autoEvolveEnabled R = true ->
  evolve_outcome R = Ok r -> Orchestrator.success r = true ->
  registerTool R = Ok tt -> dynamic_execute R name args = Ok res ->
  exists kvs,
    execute R name args ctx = Ok (JObj kvs) /\
    obj_get "_evolution" kvs =
      Some (JObj [("newTool", JBool true);
                  ("evolutionId", JStr (Orchestrator.evolutionId r));
                  ("duration", evolve_duration R)]) /\
    (forall k, k <> "_evolution" -> obj_get k kvs = obj_get k (spread res)).
Proof.
  intros Hb Hd Ha He Ho Hs Hr Hx.
  assert (Hev : execute R name args ctx = evolveAndExecute R name args).
  { unfold execute; rewrite Hb, Hd, He.
    destruct (autoEvolve ctx) as [[]|]; [reflexivity | contradiction | reflexivity]. }
  rewrite Hev; unfold evolveAndExecute; rewrite Ho, Hs, Hr, Hx; simpl.
  eexists; split; [reflexivity|]; split.
  - apply SandboxFacts.obj_get_put_same.
  - intros k Hk; apply SandboxFacts.obj_get_put_other; exact Hk.
Qed.

Lemma execute_evolved_result_witness :
  let R := RegistryEnv [] (fun _ _ => Ok JUndef) (fun _ => false)
             (fun _ _ => Ok (JObj [("content", JArr []); ("_evolution", JNull)]))
             (Ok tt) (Ok (Orchestrator.EvolveResult true "e1" None None))
             (fun _ => "{}") true (JNum 1200) in
  execute R "weather" JUndef (Context None) =
    Ok (JObj [("content", JArr []);
              ("_evolution", JObj [("newTool", JBool true); ("evolutionId", JStr "e1");
                                   ("duration", JNum 1200)])]) /\
  exists kvs,
    execute R "weather" JUndef (Context None) = Ok (JObj kvs) /\
    obj_get "_evolution" kvs =
      Some (JObj [("newTool", JBool true); ("evolutionId", JStr "e1");
                  ("duration", JNum 1200)]) /\
    (forall k, k <> "_evolution" ->
       obj_get k kvs = obj_get k [("content", JArr []); ("_evolution", JNull)]).
Proof.
  intro R; split; [reflexivity|].
  exact (execute_evolved_result R "weather" JUndef (Context None)
           (Orchestrator.EvolveResult true "e1" None None)
           (JObj [("content", JArr []); ("_evolution", JNull)])
           eq_refl eq_refl ltac:(discriminate) eq_refl eq_refl eq_refl eq_refl eq_refl).
Defined.

End RegistryExtra.

Module SanitizeExtra.
Import Sanitize SanitizeFacts.

(** The lock keys are normal forms: a sanitized name holds only
    [a-z], [0-9] and [_], and sanitizing it again changes nothing. *)
Theorem sanitize_normal_form s :
  Forall (fun c => is_name_char c = true) (list_ascii_of_string (sanitize s)) /\
  sanitize (sanitize s) = sanitize s.
Proof. split; [apply sanitize_chars | apply sanitize_idem]. Qed.

End SanitizeExtra.
